(** * trajminer: the trajectory dataset wrapper and its CSV loader

    A shallow embedding of [trajminer/trajectory_data.py] (class
    [TrajectoryData]) and [trajminer/utils/loader.py] (class
    [CSVTrajectoryLoader]), together with the properties of the dataset
    specification that can be settled on them.

    Python objects are records of optionally bound instance attributes, kept
    in a heap and addressed by reference; exceptions are values of [exn];
    methods run in a state-and-error monad over the heap, the file system
    and the standard output. *)

From Stdlib Require Import ZArith List String Ascii Bool Lia OrderedTypeEx.
From stdpp Require Import base option list sorting strings gmap.

Local Open Scope Z_scope.

(** ** Scalars: the cell values of a table

    A cell read from a CSV file is an integer or a string (floating point
    columns are outside this model).  Trajectory identifiers, labels and
    attribute values are all scalars. *)

Inductive scalar :=
| SInt (z : Z)
| SStr (s : string).

#[global] Instance scalar_eq_dec : EqDecision scalar.
Proof. solve_decision. Defined.

Definition is_int (a : scalar) : bool :=
  match a with SInt _ => true | SStr _ => false end.

Definition is_str (a : scalar) : bool :=
  match a with SInt _ => false | SStr _ => true end.

(** Python's [<=] on two integers or on two strings.  Python raises
    [TypeError] when an integer meets a string; every sort below is guarded
    by [comparable], so the two mixed cases are never consulted. *)
Definition scalar_leb (a b : scalar) : bool :=
  match a, b with
  | SInt x, SInt y => (x <=? y)%Z
  | SStr x, SStr y => String.leb x y
  | SInt _, SStr _ => true
  | SStr _, SInt _ => false
  end.

Definition scalar_le (a b : scalar) : Prop := scalar_leb a b = true.

#[global] Instance scalar_le_dec : RelDecision scalar_le.
Proof. intros a b. unfold scalar_le. apply _. Defined.

(** The values of a column can be ordered by Python: all integers or all
    strings. *)
Definition comparable (l : list scalar) : bool :=
  forallb is_int l || forallb is_str l.

(** Python truthiness of an optional scalar argument ([None], [0] and the
    empty string are falsy). *)
Definition truthy (a : option scalar) : bool :=
  match a with
  | None => false
  | Some (SInt z) => negb (z =? 0)%Z
  | Some (SStr s) => negb (String.eqb s "")
  end.

(** ** Exceptions and results *)

Inductive exn :=
| AttributeError (type_name attr : string) (* 'type_name' object has no attribute 'attr' *)
| ValueError (msg : string)
| TypeError (msg : string)
| KeyError (key : scalar)
| IndexError
| NameError (name : string)
| PyException (args : list scalar).        (* raise Exception(arg, ...) *)

Inductive result (A : Type) :=
| Ok (a : A)
| Raise (e : exn).
Arguments Ok {A} a.
Arguments Raise {A} e.

#[global] Instance result_ret : MRet result := λ A a, Ok a.

#[global] Instance result_bind : MBind result := λ A B f r,
  match r with
  | Ok a => f a
  | Raise e => Raise e
  end.

#[global] Instance result_fmap : FMap result := λ A B f r,
  match r with
  | Ok a => Ok (f a)
  | Raise e => Raise e
  end.

(** ** The part of pandas and numpy the two classes rely on *)

Module Pandas.

(** A rectangular table: column names and rows of cells, one cell per
    column in every row.  The row index is positional, so
    [reset_index(drop=True)] is the identity. *)
Record DataFrame := mkDataFrame {
  columns : list string;
  rows : list (list scalar);
}.

(** A series: (index, value) pairs in row order. *)
Definition Series := list (scalar * scalar).

Definition index (s : Series) : list scalar := fst <$> s.
Definition values (s : Series) : list scalar := snd <$> s.

(** Position of the first column called [c]. *)
Fixpoint col_index (c : string) (cols : list string) : option nat :=
  match cols with
  | [] => None
  | c' :: cols' =>
      if String.eqb c c' then Some O else S <$> col_index c cols'
  end.

(** [c in df.columns] *)
Definition has_column (c : string) (df : DataFrame) : bool :=
  bool_decide (c ∈ columns df).

Definition cell (i : nat) (r : list scalar) : scalar :=
  nth i r (SStr "").

(** [df[c]]: the cells of column [c], [KeyError] when it is absent. *)
Definition column (c : string) (df : DataFrame) : result (list scalar) :=
  match col_index c (columns df) with
  | Some i => Ok (cell i <$> rows df)
  | None => Raise (KeyError (SStr c))
  end.

(** The sorted order of [sort_values] and [sort_index], as a stable
    insertion sort on a key: each element is put in front of the later
    elements that carry an equal key.  pandas fixes the order of the keys
    only; rows of equal key keep their original order here. *)
Section SortBy.
Context {A : Type} (key : A → scalar).

Fixpoint insert_by (x : A) (l : list A) : list A :=
  match l with
  | [] => [x]
  | y :: l' =>
      if scalar_leb (key x) (key y) then x :: y :: l'
      else y :: insert_by x l'
  end.

Fixpoint sort_by (l : list A) : list A :=
  match l with
  | [] => []
  | x :: l' => insert_by x (sort_by l')
  end.

(** Ascending on the key. *)
Definition key_le (x y : A) : Prop := scalar_le (key x) (key y).
End SortBy.

Definition sort_scalars : list scalar → list scalar := sort_by id.

(** [df.sort_values(by=c)] *)
Definition sort_values (c : string) (df : DataFrame) : result DataFrame :=
  match col_index c (columns df) with
  | None => Raise (KeyError (SStr c))
  | Some i =>
      if comparable (cell i <$> rows df)
      then Ok (mkDataFrame (columns df) (sort_by (cell i) (rows df)))
      else Raise (TypeError "'<' not supported between instances of 'int' and 'str'")
  end.

(** [s.sort_index()] *)
Definition sort_index (s : Series) : result Series :=
  if comparable (index s)
  then Ok (sort_by fst s)
  else Raise (TypeError "'<' not supported between instances of 'int' and 'str'").

(** [pandas.unique] / [Series.unique]: distinct values in order of first
    appearance. *)
Fixpoint unique (l : list scalar) : list scalar :=
  match l with
  | [] => []
  | x :: l' => x :: filter (λ y, y ≠ x) (unique l')
  end.

(** [s.drop_duplicates()]: rows whose VALUE already occurred are dropped,
    the first row of each value is kept with its index. *)
Fixpoint drop_duplicates (s : Series) : Series :=
  match s with
  | [] => []
  | p :: s' => p :: filter (λ q, q.2 ≠ p.2) (drop_duplicates s')
  end.

(** [numpy.array_equal] on two one-dimensional arrays. *)
Definition array_equal (a b : list scalar) : bool := bool_decide (a = b).

(** [df.rename(columns=mapping)]: names without an entry are kept, entries
    naming no column are ignored. *)
Definition rename (mapping : string → option string) (df : DataFrame) : DataFrame :=
  mkDataFrame ((λ c, default c (mapping c)) <$> columns df) (rows df).

(** Remove the entries at the positions whose column name satisfies [p]. *)
Fixpoint drop_where {A} (p : string → bool) (cols : list string) (r : list A) : list A :=
  match cols, r with
  | c :: cols', x :: r' =>
      if p c then drop_where p cols' r' else x :: drop_where p cols' r'
  | _, _ => []
  end.

Definition select_columns (keep : string → bool) (df : DataFrame) : DataFrame :=
  mkDataFrame (List.filter keep (columns df))
              (drop_where (λ c, negb (keep c)) (columns df) <$> rows df).

(** [df.drop(columns=c)] *)
Definition drop (c : string) (df : DataFrame) : result DataFrame :=
  if has_column c df
  then Ok (select_columns (λ c', negb (String.eqb c' c)) df)
  else Raise (KeyError (SStr c)).

(** [df.set_index(idx, drop=False)[c]]: [set_index] reports a missing
    index column in its own words, the subscript a missing column [c] by
    its name. *)
Definition indexed_column (idx c : string) (df : DataFrame) : result Series :=
  ks ← match column idx df with
       | Ok ks => Ok ks
       | Raise _ =>
           Raise (KeyError (SStr ("None of ['" +:+ idx +:+ "'] are in the columns")))
       end;
  vs ← column c df;
  Ok (zip ks vs).

End Pandas.

(** ** Python dictionaries with scalar keys

    Insertion ordered; assigning to a key that is present replaces its value
    in place. *)

Module Dict.
Section Dict.
Context {V : Type}.

Definition t := list (scalar * V).

Fixpoint get (k : scalar) (d : t) : option V :=
  match d with
  | [] => None
  | (k', v) :: d' => if decide (k = k') then Some v else get k d'
  end.

Fixpoint set (k : scalar) (v : V) (d : t) : t :=
  match d with
  | [] => [(k, v)]
  | (k', v') :: d' =>
      if decide (k = k') then (k', v) :: d' else (k', v') :: set k v d'
  end.

(** [d[k]] *)
Definition subscript (k : scalar) (d : t) : result V :=
  match get k d with
  | Some v => Ok v
  | None => Raise (KeyError k)
  end.

(** [dict(pairs)] *)
Definition of_pairs (ps : list (scalar * V)) : t :=
  foldl (λ d p, set p.1 p.2 d) [] ps.
End Dict.
Arguments t : clear implicits.
End Dict.

(** ** Instances of [TrajectoryData] *)

Module Obj.

(** A point holds one value per attribute, [None] for a missing one. *)
Definition point := list (option scalar).
Definition trajectory := list point.

(** The values of the attribute [labels] in the array representation.
    [_update] binds it to [np.array(labels)]: a one-dimensional array for a
    list, a zero-dimensional object array for [None].  [LNone] is Python's
    [None], the value the class tests with [self.labels is None]. *)
Inductive labels_array :=
| LNone
| LArray (a : list scalar)
| LArray0.

(** A mean or a standard deviation of a sample of counts, kept as the
    numpy expression it is: the floating point value is not computed. *)
Inductive fexpr :=
| Mean (xs : list nat)
| Std (xs : list nat).

Record dist := mkDist {
  d_min : nat;
  d_avg : fexpr;
  d_std : fexpr;
  d_max : nat;
}.

(** The dictionary built by [stats]. *)
Record summary := mkSummary {
  attribute_count : nat;
  attribute_dist : dist;
  point_count : nat;
  trajectory_count : nat;
  trajectory_length : dist;
  label_block : option (nat * dist);
}.

(** The attributes [_update] binds, all in one go. *)
Record updated := mkUpdated {
  tids : list scalar;
  labels : labels_array;
  data : list trajectory;
  tidToIdx : Dict.t nat;
  labelToIdx : option (Dict.t (list nat));
  _stats : option summary;
}.

(** The instance attributes bound on an object.  Attributes are bound in
    two places only: [__init__] binds [data] (a sorted DataFrame) and
    [labels] (a sorted Series); [_update] binds [tids], [labels], [data],
    [tidToIdx], [labelToIdx] and [_stats] ([stats] rebinds [_stats], which
    it reads first).  Reading any other attribute raises
    [AttributeError]. *)
Inductive bound :=
| Init (df : Pandas.DataFrame) (labels : Pandas.Series)
| Upd (u : updated).

(** No statement of the class binds [attributes]; it is bound only when
    assigned from outside. *)
Record t := mk {
  attributes : option (list string);
  env : bound;
}.

Definition unbound {A} (attr : string) : result A :=
  Raise (AttributeError "TrajectoryData" attr).

(** [self.labels is None], the test by which the methods of the class
    take a dataset to be without labels.  It holds of an instance whose
    [labels] was assigned [None] from outside; [_update] called with
    [labels=None] binds the array [np.array(None)] instead ([LArray0]). *)
Definition unlabelled (o : t) : Prop :=
  match env o with
  | Upd u => labels u = LNone
  | Init _ _ => False
  end.

End Obj.

(** ** The world: heap of instances, files, standard output *)

Definition ref := nat.

Inductive out_event :=
| PrintedStats (s : Obj.summary)        (* ATTRIBUTE, POINT, TRAJECTORY blocks *)
| PrintedLabelHeading                   (* the line LABEL *)
| PrintedLabels (l : nat * Obj.dist)    (* the lines of the LABEL block *)
| PrintedRule.                          (* closing rule *)

Record world := mkWorld {
  heap : list Obj.t;
  files : gmap string string;
  stdout : list out_event;
}.

Definition M (A : Type) : Type := world → result A * world.

#[global] Instance M_ret : MRet M := λ A a w, (Ok a, w).

#[global] Instance M_bind : MBind M := λ A B f m w,
  match m w with
  | (Ok a, w') => f a w'
  | (Raise e, w') => (Raise e, w')
  end.

Definition raise {A} (e : exn) : M A := λ w, (Raise e, w).

Definition lift {A} (r : result A) : M A := λ w, (r, w).

(** The object a reference denotes; a reference that denotes none stands
    for a name that was never bound. *)
Definition deref (r : ref) : M Obj.t := λ w,
  match heap w !! r with
  | Some o => (Ok o, w)
  | None => (Raise (NameError "unbound reference"), w)
  end.

Definition store (r : ref) (o : Obj.t) : M unit := λ w,
  (Ok (), mkWorld (<[r := o]> (heap w)) (files w) (stdout w)).

Definition alloc (o : Obj.t) : M ref := λ w,
  (Ok (List.length (heap w)), mkWorld (heap w ++ [o]) (files w) (stdout w)).

Definition print (e : out_event) : M unit := λ w,
  (Ok (), mkWorld (heap w) (files w) (stdout w ++ [e])).

(** [open(file, 'w').write(text)] with the file closed afterwards. *)
Definition write_file (file text : string) : M unit := λ w,
  (Ok (), mkWorld (heap w) (<[file := text]> (files w)) (stdout w)).

(** ** class TrajectoryData *)

Module TrajectoryData.
Import Pandas Obj.

(** The two errors raised by [__init__] itself. *)
Definition schema_error : exn :=
  ValueError "Trajectory dataframe must have a 'tid' column.".

Definition label_mismatch_error : exn :=
  ValueError "Trajectory dataframe tids must match with labels's index.".

(** [__init__(self, df, labels=None)].  The object under construction has
    no attribute yet; the result is the object as [__init__] leaves it. *)
Definition __init__ (df : DataFrame) (labels : option Series) : result Obj.t :=
  if negb (has_column "tid" df)
  then Raise schema_error
  else
    df ← sort_values "tid" df;
    labels ← match labels with
             | Some s => sort_index s
             | None => Raise (AttributeError "NoneType" "sort_index")
             end;
    tid_column ← column "tid" df;
    if negb (array_equal (unique tid_column) (index labels))
    then Raise label_mismatch_error
    else Ok (Obj.mk None (Init df labels)).

(** The call [TrajectoryData(df, labels)]. *)
Definition new (df : DataFrame) (labels : option Series) : M ref :=
  o ← lift (__init__ df labels);
  alloc o.

(** [a[i]] on an array *)
Definition item {A} (i : nat) (a : list A) : result A :=
  match a !! i with
  | Some x => Ok x
  | None => Raise IndexError
  end.

(** [a[idxs]] on an array, for a list of positions *)
Fixpoint take {A} (idxs : list nat) (a : list A) : result (list A) :=
  match idxs with
  | [] => Ok []
  | i :: idxs' =>
      x ← item i a;
      xs ← take idxs' a;
      Ok (x :: xs)
  end.

(** [sorted(list(set(xs)))] *)
Definition sorted_set (xs : list scalar) : result (list scalar) :=
  if comparable (unique xs)
  then Ok (sort_scalars (unique xs))
  else Raise (TypeError "'<' not supported between instances of 'int' and 'str'").

Definition get_attributes (self : Obj.t) : result (list string) :=
  match attributes self with
  | Some a => Ok a
  | None => unbound "attributes"
  end.

(** [self.labelToIdx[label]] *)
Definition labelToIdx_item (label : option scalar) (u : updated) : result (list nat) :=
  match labelToIdx u, label with
  | Some d, Some l => Dict.subscript l d
  | _, _ => Raise (TypeError "'NoneType' object is not subscriptable")
  end.

Definition is_None (l : labels_array) : bool :=
  match l with LNone => true | _ => false end.

Definition get_tids (label : option scalar) (self : Obj.t) : result (list scalar) :=
  match env self with
  | Init _ _ =>
      if negb (truthy label) then unbound "tids" else unbound "labelToIdx"
  | Upd u =>
      if negb (truthy label) || is_None (labels u) then Ok (tids u)
      else
        idxs ← labelToIdx_item label u;
        take idxs (tids u)
  end.

Definition get_label (tid : scalar) (self : Obj.t) : result scalar :=
  match env self with
  | Init _ _ => unbound "tidToIdx"
  | Upd u =>
      i ← Dict.subscript tid (tidToIdx u);
      match labels u with
      | LNone => Raise (TypeError "'NoneType' object is not subscriptable")
      | LArray a => item i a
      | LArray0 => Raise IndexError
      end
  end.

(** What [get_labels] hands back: the attribute itself, or a fresh sorted
    list. *)
Inductive labels_view :=
| TheSeries (s : Series)
| TheArray (a : labels_array)
| SortedList (l : list scalar).

Definition get_labels (unique : bool) (self : Obj.t) : result labels_view :=
  match env self with
  | Init _ s =>
      if unique then SortedList <$> sorted_set (values s)
      else Ok (TheSeries s)
  | Upd u =>
      if unique && negb (is_None (labels u)) then
        match labels u with
        | LArray a => SortedList <$> sorted_set a
        | _ => Raise (TypeError "iteration over a 0-d array")
        end
      else Ok (TheArray (labels u))
  end.

Definition get_trajectory (tid : scalar) (self : Obj.t) : result trajectory :=
  match env self with
  | Init _ _ => unbound "tidToIdx"
  | Upd u =>
      i ← Dict.subscript tid (tidToIdx u);
      item i (data u)
  end.

Inductive data_view :=
| TheFrame (df : DataFrame)
| Trajectories (a : list trajectory).

Definition get_trajectories (label : option scalar) (self : Obj.t) : result data_view :=
  match env self with
  | Init df _ =>
      if negb (truthy label) then Ok (TheFrame df) else unbound "labelToIdx"
  | Upd u =>
      if negb (truthy label) || is_None (labels u) then Ok (Trajectories (data u))
      else
        idxs ← labelToIdx_item label u;
        Trajectories <$> take idxs (data u)
  end.

Definition length (self : Obj.t) : result nat :=
  match env self with
  | Init _ _ => unbound "tids"
  | Upd u => Ok (List.length (tids u))
  end.

(** [_get_label_to_idx(labels)] *)
Definition _get_label_to_idx (labels : option (list scalar)) : option (Dict.t (list nat)) :=
  match labels with
  | None => None
  | Some ls =>
      Some (foldl (λ d il,
                     match Dict.get il.2 d with
                     | Some idxs => Dict.set il.2 (idxs ++ [il.1]) d
                     | None => Dict.set il.2 [il.1] d
                     end)
                  [] (zip (seq 0 (List.length ls)) ls))
  end.

(** [np.array(labels)] *)
Definition np_array_labels (labels : option (list scalar)) : labels_array :=
  match labels with
  | Some ls => LArray ls
  | None => LArray0
  end.

(** [_update(self, attributes, data, tids, labels)]: the parameter
    [attributes] is not used.  [np.array] is taken on the lists that it
    stores as they are: values of one numpy type, in trajectories that form
    a rectangular block.  The properties that read a value back from the
    arrays state these conditions ([Layout.np_exact], [Layout.np_exact_data]
    and [Layout.rectangular]). *)
Definition bindings (data : list trajectory) (tids : list scalar)
    (labels : option (list scalar)) : updated :=
  {| Obj.tids := tids;
     Obj.labels := np_array_labels labels;
     Obj.data := data;
     Obj.tidToIdx := Dict.of_pairs (zip tids (seq 0 (List.length tids)));
     Obj.labelToIdx := _get_label_to_idx labels;
     Obj._stats := None |}.

Definition _update (self : ref) (attributes : list string) (data : list trajectory)
    (tids : list scalar) (labels : option (list scalar)) : M unit :=
  o ← deref self;
  store self (Obj.mk (Obj.attributes o) (Upd (bindings data tids labels))).

(** [set(a) != set(b)] *)
Definition set_ne (a b : list string) : bool :=
  negb (forallb (λ x, bool_decide (x ∈ b)) a && forallb (λ x, bool_decide (x ∈ a)) b).

(** [self.labels.tolist()]: the list of an array, the scalar [None] of a
    zero-dimensional one. *)
Definition labels_tolist (l : labels_array) : result (option (list scalar)) :=
  match l with
  | LNone => Raise (AttributeError "NoneType" "tolist")
  | LArray a => Ok (Some a)
  | LArray0 => Ok None
  end.

(** The local lists [n_tids], [n_data] and [n_labels] of [merge]. *)
Record working := mkWorking {
  n_tids : list scalar;
  n_data : list trajectory;
  n_labels : option (list scalar);
}.

(** The loop [for tid in other.tids] of [merge]. *)
Fixpoint merge_loop (other : Obj.t) (ignore_duplicates : bool)
    (todo : list scalar) (n : working) : result working :=
  match todo with
  | [] => Ok n
  | tid :: todo' =>
      if bool_decide (tid ∈ n_tids n) then
        if ignore_duplicates then merge_loop other ignore_duplicates todo' n
        else Raise (PyException [SStr "tid"; tid; SStr "already exists in 'self'!"])
      else
        traj ← get_trajectory tid other;
        labs ← match n_labels n with
               | Some ls => lab ← get_label tid other; Ok (Some (ls ++ [lab]))
               | None => Ok None
               end;
        merge_loop other ignore_duplicates todo'
          (mkWorking (n_tids n ++ [tid]) (n_data n ++ [traj]) labs)
  end.

(** The statements of [merge] up to the end of the loop. *)
Definition merge_candidate (self other : Obj.t) (ignore_duplicates : bool)
    : result (list string * working) :=
  sa ← get_attributes self;
  oa ← get_attributes other;
  if set_ne sa oa
  then Raise (PyException [SStr "Cannot merge datasets with different sets of attributes!"])
  else
    match env self with
    | Init _ _ => unbound "tids"
    | Upd u =>
        ls ← labels_tolist (labels u);
        match env other with
        | Init _ _ => unbound "tids"
        | Upd v =>
            n ← merge_loop other ignore_duplicates (tids v)
                   (mkWorking (tids u) (data u) ls);
            Ok (sa, n)
        end
    end.

(** [merge(self, other, ignore_duplicates=True, inplace=True)].  Without
    [inplace] the constructor is called with the four arguments of the
    array representation, which [__init__(self, df, labels=None)] does
    not take. *)
Definition merge (self other : ref) (ignore_duplicates inplace : bool) : M ref :=
  s ← deref self;
  o ← deref other;
  c ← lift (merge_candidate s o ignore_duplicates);
  if inplace then
    _ ← _update self c.1 (n_data c.2) (n_tids c.2) (n_labels c.2);
    mret self
  else
    raise (TypeError "__init__() takes from 2 to 3 positional arguments but 5 were given").

(** [a.min()] and [a.max()] of an array of counts *)
Definition np_min (xs : list nat) : result nat :=
  match xs with
  | [] => Raise (ValueError "zero-size array to reduction operation minimum which has no identity")
  | x :: xs' => Ok (foldr Nat.min x xs')
  end.

Definition np_max (xs : list nat) : result nat :=
  match xs with
  | [] => Raise (ValueError "zero-size array to reduction operation maximum which has no identity")
  | x :: xs' => Ok (foldr Nat.max x xs')
  end.

(** The entries [min], [avg], [std], [max] of one block, in that order. *)
Definition describe (xs : list nat) : result dist :=
  lo ← np_min xs;
  hi ← np_max xs;
  Ok (mkDist lo (Mean xs) (Std xs) hi).

(** [np.concatenate(self.data)], every point having one value per
    attribute. *)
Definition np_concatenate (data : list trajectory) : result (list point) :=
  match data with
  | [] => Raise (ValueError "need at least one array to concatenate")
  | _ => Ok (concat data)
  end.

Definition count_not_none (p : point) : nat :=
  List.length (List.filter (λ x : option scalar, bool_decide (is_Some x)) p).

(** The dictionary assigned to [self._stats], before the label block. *)
Definition summarise (self : Obj.t) (u : updated) : result summary :=
  let traj_lengths := List.length <$> data u in
  points ← np_concatenate (data u);
  let attr_count := count_not_none <$> points in
  attrs ← get_attributes self;
  attribute ← describe attr_count;
  lengths ← describe traj_lengths;
  Ok (mkSummary (List.length attrs) attribute
                (foldr Nat.add O traj_lengths)
                (List.length (data u)) lengths None).

(** [np.unique(self.labels, return_counts=True)], the counts only, in the
    order of the sorted distinct labels. *)
Definition np_unique_counts (l : labels_array) : result (list nat) :=
  match l with
  | LArray a =>
      if comparable a
      then Ok ((λ x, List.length (filter (λ y, y = x) a)) <$> sort_scalars (unique a))
      else Raise (TypeError "'<' not supported between instances of 'int' and 'str'")
  | _ => Ok [1%nat]
  end.

Definition label_summary (l : labels_array) : result (nat * dist) :=
  counts ← np_unique_counts l;
  d ← describe counts;
  Ok (List.length counts, d).

Definition set_stats (u : updated) (s : option summary) : updated :=
  mkUpdated (tids u) (labels u) (data u) (tidToIdx u) (labelToIdx u) s.

Definition set_label_block (s : summary) (l : nat * dist) : summary :=
  mkSummary (attribute_count s) (attribute_dist s) (point_count s)
            (trajectory_count s) (trajectory_length s) (Some l).

(** [_print_stats(self)]: the report is logged block by block; the text of
    a block, with its formatted floating point numbers, is not modelled. *)
Definition _print_stats (self : ref) : M unit :=
  o ← deref self;
  match env o with
  | Init _ _ => lift (unbound "_stats")
  | Upd u =>
      match _stats u with
      | None => raise (TypeError "'NoneType' object is not subscriptable")
      | Some s =>
          print (PrintedStats s);;
          if negb (is_None (labels u)) then
            print PrintedLabelHeading;;
            match label_block s with
            | Some l => print (PrintedLabels l);; print PrintedRule
            | None => raise (KeyError (SStr "label"))
            end
          else print PrintedRule
      end
  end.

(** [stats(self, print_stats=False)] *)
Definition stats (self : ref) (print_stats : bool) : M summary :=
  o ← deref self;
  match env o with
  | Init _ _ => lift (unbound "_stats")
  | Upd u =>
      match _stats u with
      | Some s =>
          (if print_stats then _print_stats self else mret ());;
          mret s
      | None =>
          s ← lift (summarise o u);
          store self (Obj.mk (attributes o) (Upd (set_stats u (Some s))));;
          s ← (if negb (is_None (labels u)) then
                 l ← lift (label_summary (labels u));
                 let s' := set_label_block s l in
                 store self (Obj.mk (attributes o) (Upd (set_stats u (Some s'))));;
                 mret s'
               else mret s);
          (if print_stats then _print_stats self else mret ());;
          mret s
      end
  end.

Definition newline : string := String (ascii_of_nat 10) EmptyString.

(** The header line built by [_to_csv]. *)
Definition csv_header (attrs : list string) : string :=
  foldl (λ header attr,
           if String.eqb attr "lat_lon" then header +:+ ",lat,lon"
           else header +:+ "," +:+ attr)
        "tid,label" attrs.

(** [_to_csv(self, file, n_jobs)].  The module imports [numpy] only: the
    names [delayed], [Parallel] and [gen_even_slices] are bound nowhere,
    so the first of them to be evaluated, [delayed], raises [NameError]
    once the header is written, and the closure [build_lines] is never
    called. *)
Definition _to_csv (self : ref) (file : string) (n_jobs : nat) : M unit :=
  o ← deref self;
  tids ← lift (get_tids None o);
  write_file file "";;
  attrs ← lift (get_attributes o);
  write_file file (csv_header attrs +:+ newline);;
  raise (NameError "delayed").

(** [to_file(self, file, file_type='csv', n_jobs=1)] *)
Definition to_file (self : ref) (file file_type : string) (n_jobs : nat) : M unit :=
  if String.eqb file_type "csv" then _to_csv self file n_jobs
  else mret ().

End TrajectoryData.

(** ** class CSVTrajectoryLoader *)

Module CSVTrajectoryLoader.
Import Pandas.

Record t := mk {
  file : string;
  sep : string;
  tid_col : string;
  label_col : option string;
  lat : string;
  lon : string;
  drop_col : list string;
}.

(** The dictionary [{self.tid_col: 'tid', self.lat: 'lat', self.lon:
    'lon'}]; of two equal keys the later entry wins. *)
Definition renaming (self : t) (c : string) : option string :=
  if String.eqb c (lon self) then Some "lon"
  else if String.eqb c (lat self) then Some "lat"
  else if String.eqb c (tid_col self) then Some "tid"
  else None.

(** The first two statements of [load]: [pd.read_csv] with [usecols],
    then [rename].  [table] is the table held by the file [self.file], as
    [pd.read_csv] parses it with every column kept. *)
Definition read_renamed (self : t) (table : DataFrame) : DataFrame :=
  let df := select_columns (λ c, negb (bool_decide (c ∈ drop_col self))) table in
  rename (renaming self) df.

(** [load(self)] *)
Definition load (self : t) (table : DataFrame) : M ref :=
  let df := read_renamed self table in
  match label_col self with
  | None => TrajectoryData.new df None
  | Some label_col =>
      let real_label_col :=
        if String.eqb label_col (tid_col self) then "tid" else label_col in
      labels ← lift (drop_duplicates <$> indexed_column "tid" real_label_col df);
      df ← (if negb (String.eqb real_label_col "tid")
            then lift (drop real_label_col df)
            else mret df);
      TrajectoryData.new df (Some labels)
  end.

End CSVTrajectoryLoader.

(** ** datasets/tools.py: the download cache

    The module keeps the cache directory in the global
    [_trajminer_data_dir] and reaches the file system, the network and tar
    archives through [pathlib], [urllib], [tempfile] and [tarfile].  Those
    are a parameter here: a record of operations on an abstract type of
    paths and an abstract type of disks.  An operation that can fail
    returns a [result]. *)

Module Tools.
Section WithOS.
Context {path disk : Type}.

Record os := mkOS {
  Path : string → path;                             (* Path(s) *)
  joinpath : path → list string → path;             (* p.joinpath(a, ...), Path(p, a) *)
  is_file : path → disk → bool;                     (* p.is_file() *)
  mkdir : path → disk → result disk;                (* p.mkdir(parents=True, exist_ok=True) *)
  urlretrieve : string → path → disk → result disk; (* request.urlretrieve(url, p) *)
  glob_temp : disk → list path;                     (* Path(gettempdir()).glob('trajminer_data_*') *)
  mkdtemp : disk → result (path * disk);            (* Path(mkdtemp(prefix='trajminer_data_')) *)
  getnames : path → disk → result (list string);    (* tarfile.open(p, 'r').getnames() *)
  extractall : path → path → disk → result disk;    (* tarfile.open(p, 'r').extractall(q) *)
}.

(** The global [_trajminer_data_dir] ([None] when unset) and the disk. *)
Record state := mkState {
  data_dir : option path;
  files : disk;
}.

Context (O : os).

Definition set_cache_dir (folder : string) (s : state) : result unit * state :=
  (Ok (), mkState (Some (Path O folder)) (files s)).

Definition get_file_url (folder file_name : string) : string :=
  "https://github.com/trajminer/data/blob/master/"
  +:+ folder +:+ "/" +:+ file_name +:+ "?raw=true".

(** [_get_temp_dir()]: the first match of the glob, or a new temporary
    directory when there is none. *)
Definition _get_temp_dir (s : state) : result path * state :=
  match glob_temp O (files s) with
  | d :: _ => (Ok d, s)
  | [] =>
      match mkdtemp O (files s) with
      | Ok (d, fs) => (Ok d, mkState (data_dir s) fs)
      | Raise e => (Raise e, s)
      end
  end.

Definition _create_cache_dir (folder : string) (s : state) : result unit * state :=
  let '(r, s) :=
    match data_dir s with
    | Some d => (Ok d, s)
    | None =>
        match _get_temp_dir s with
        | (Ok d, s') => (Ok d, mkState (Some d) (files s'))
        | (Raise e, s') => (Raise e, s')
        end
    end in
  match r with
  | Raise e => (Raise e, s)
  | Ok d =>
      match mkdir O (joinpath O d [folder]) (files s) with
      | Ok fs => (Ok (), mkState (data_dir s) fs)
      | Raise e => (Raise e, s)
      end
  end.

(** [_trajminer_data_dir.joinpath(...)], an [AttributeError] on [None]. *)
Definition data_dir_joinpath (parts : list string) (s : state) : result path :=
  match data_dir s with
  | Some d => Ok (joinpath O d parts)
  | None => Raise (AttributeError "NoneType" "joinpath")
  end.

Definition download_file (folder file_name : string) (cache : bool) (s : state)
    : result path * state :=
  match _create_cache_dir folder s with
  | (Raise e, s) => (Raise e, s)
  | (Ok _, s) =>
      match data_dir_joinpath [folder; file_name] s with
      | Raise e => (Raise e, s)
      | Ok file_path =>
          if negb cache || negb (is_file O file_path (files s)) then
            match urlretrieve O (get_file_url folder file_name) file_path (files s) with
            | Ok fs => (Ok file_path, mkState (data_dir s) fs)
            | Raise e => (Raise e, s)
            end
          else (Ok file_path, s)
      end
  end.

Definition extract_tar (folder : string) (file : path) (cache : bool) (s : state)
    : result path * state :=
  match _create_cache_dir folder s with
  | (Raise e, s) => (Raise e, s)
  | (Ok _, s) =>
      match data_dir_joinpath [folder] s with
      | Raise e => (Raise e, s)
      | Ok extraction_folder =>
          match getnames O file (files s) with
          | Raise e => (Raise e, s)
          | Ok [] => (Raise IndexError, s)
          | Ok (name :: _) =>
              let extracted_file := joinpath O extraction_folder [name] in
              if negb cache || negb (is_file O extracted_file (files s)) then
                match extractall O file extraction_folder (files s) with
                | Ok fs => (Ok extracted_file, mkState (data_dir s) fs)
                | Raise e => (Raise e, s)
                end
              else (Ok extracted_file, s)
          end
      end
  end.

End WithOS.
Arguments os : clear implicits.
Arguments state : clear implicits.

(** A small file system, to run the module on: a path is its list of
    parts, a disk the list of its files; directories need no creation,
    every download succeeds, every archive holds [data.csv] first. *)
Definition toy : os (list string) (list (list string)) :=
  {| Path := λ s, [s];
     joinpath := λ p parts, p ++ parts;
     is_file := λ p fs, bool_decide (p ∈ fs);
     mkdir := λ _ fs, Ok fs;
     urlretrieve := λ _ p fs, Ok (p :: fs);
     glob_temp := λ _, [];
     mkdtemp := λ fs, Ok (["tmp"; "trajminer_data_0"], fs);
     getnames := λ _ _, Ok ["data.csv"; "README"];
     extractall := λ _ q fs, Ok ((q ++ ["data.csv"]) :: (q ++ ["README"]) :: fs) |}.

(** The same file system, where every archive is empty. *)
Definition toy_empty_archives : os (list string) (list (list string)) :=
  {| Path := Path toy;
     joinpath := joinpath toy;
     is_file := is_file toy;
     mkdir := mkdir toy;
     urlretrieve := urlretrieve toy;
     glob_temp := glob_temp toy;
     mkdtemp := mkdtemp toy;
     getnames := λ _ _, Ok [];
     extractall := extractall toy |}.

End Tools.

(** ** Concrete inputs *)

Module Scenario.
Import Pandas Obj.

Definition empty_world : world := mkWorld [] ∅ [].

(** Tids [2, 1], two points each, one attribute [poi]. *)
Definition table : DataFrame :=
  mkDataFrame ["tid"; "poi"]
    [[SInt 2; SStr "home"]; [SInt 2; SStr "work"];
     [SInt 1; SStr "park"]; [SInt 1; SStr "shop"]].

(** Labels [{1: 'a', 2: 'b'}]. *)
Definition labels : Series := [(SInt 1, SStr "a"); (SInt 2, SStr "b")].

(** The object [TrajectoryData(table, labels)]. *)
Definition constructed : Obj.t :=
  Obj.mk None
    (Init (mkDataFrame ["tid"; "poi"]
             [[SInt 1; SStr "park"]; [SInt 1; SStr "shop"];
              [SInt 2; SStr "home"]; [SInt 2; SStr "work"]])
          [(SInt 1, SStr "a"); (SInt 2, SStr "b")]).

(** A label series in which the key 1 occurs twice. *)
Definition repeated_key_labels : Series :=
  [(SInt 1, SStr "a"); (SInt 1, SStr "a"); (SInt 2, SStr "b")].

(** A second table and its labels; tid 1 occurs in both tables. *)
Definition other_table : DataFrame :=
  mkDataFrame ["tid"; "poi"] [[SInt 1; SStr "cafe"]; [SInt 3; SStr "gym"]].

Definition other_labels : Series := [(SInt 1, SStr "a"); (SInt 3, SStr "c")].

Definition other_constructed : Obj.t :=
  Obj.mk None
    (Init (mkDataFrame ["tid"; "poi"] [[SInt 1; SStr "cafe"]; [SInt 3; SStr "gym"]])
          [(SInt 1, SStr "a"); (SInt 3, SStr "c")]).

(** The world after [d0 = TrajectoryData(table, labels)] and
    [d1 = TrajectoryData(other_table, other_labels)]. *)
Definition d0 : ref := 0%nat.
Definition d1 : ref := 1%nat.

Definition two_constructed : world := mkWorld [constructed; other_constructed] ∅ [].

(** Two instances in the array representation, as [_update] binds it, with
    [attributes] assigned from outside: tid 5 labelled [a], tid 1 labelled
    [b]. *)
Definition five : Obj.t :=
  Obj.mk (Some ["poi"])
    (Upd {| Obj.tids := [SInt 5];
            Obj.labels := LArray [SStr "a"];
            Obj.data := [[[Some (SStr "home")]]];
            Obj.tidToIdx := [(SInt 5, O)];
            Obj.labelToIdx := Some [(SStr "a", [O])];
            Obj._stats := None |}).

Definition one : Obj.t :=
  Obj.mk (Some ["poi"])
    (Upd {| Obj.tids := [SInt 1];
            Obj.labels := LArray [SStr "b"];
            Obj.data := [[[Some (SStr "park")]; [Some (SStr "shop")]]];
            Obj.tidToIdx := [(SInt 1, O)];
            Obj.labelToIdx := Some [(SStr "b", [O])];
            Obj._stats := None |}).

Definition two_arrays : world := mkWorld [five; one] ∅ [].

(** Tid 1 labelled [b] with a single point: its trajectory has the shape
    of the trajectory of [five], so that the two can share one array. *)
Definition one_short : Obj.t :=
  Obj.mk (Some ["poi"])
    (Upd {| Obj.tids := [SInt 1];
            Obj.labels := LArray [SStr "b"];
            Obj.data := [[[Some (SStr "park")]]];
            Obj.tidToIdx := [(SInt 1, O)];
            Obj.labelToIdx := Some [(SStr "b", [O])];
            Obj._stats := None |}).

Definition two_aligned : world := mkWorld [five; one_short] ∅ [].

(** The same two instances with [labels] bound to [None]. *)
Definition unlabelled_five : Obj.t :=
  Obj.mk (Some ["poi"])
    (Upd {| Obj.tids := [SInt 5];
            Obj.labels := LNone;
            Obj.data := [[[Some (SStr "home")]]];
            Obj.tidToIdx := [(SInt 5, O)];
            Obj.labelToIdx := None;
            Obj._stats := None |}).

Definition unlabelled_one : Obj.t :=
  Obj.mk (Some ["poi"])
    (Upd {| Obj.tids := [SInt 1];
            Obj.labels := LNone;
            Obj.data := [[[Some (SStr "park")]; [Some (SStr "shop")]]];
            Obj.tidToIdx := [(SInt 1, O)];
            Obj.labelToIdx := None;
            Obj._stats := None |}).

Definition two_unlabelled : world := mkWorld [unlabelled_five; unlabelled_one] ∅ [].

(** The same two instances as [_update] binds them when it is given
    [labels=None]: [labels] is then [np.array(None)], which is not [None]. *)
Definition bare_five : Obj.t :=
  Obj.mk (Some ["poi"])
    (Upd {| Obj.tids := [SInt 5];
            Obj.labels := LArray0;
            Obj.data := [[[Some (SStr "home")]]];
            Obj.tidToIdx := [(SInt 5, O)];
            Obj.labelToIdx := None;
            Obj._stats := None |}).

Definition bare_one : Obj.t :=
  Obj.mk (Some ["poi"])
    (Upd {| Obj.tids := [SInt 1];
            Obj.labels := LArray0;
            Obj.data := [[[Some (SStr "park")]; [Some (SStr "shop")]]];
            Obj.tidToIdx := [(SInt 1, O)];
            Obj.labelToIdx := None;
            Obj._stats := None |}).

Definition two_bare : world := mkWorld [bare_five; bare_one] ∅ [].

Definition bare_one_short : Obj.t :=
  Obj.mk (Some ["poi"])
    (Upd {| Obj.tids := [SInt 1];
            Obj.labels := LArray0;
            Obj.data := [[[Some (SStr "park")]]];
            Obj.tidToIdx := [(SInt 1, O)];
            Obj.labelToIdx := None;
            Obj._stats := None |}).

Definition two_bare_aligned : world := mkWorld [bare_five; bare_one_short] ∅ [].


(** A loader with the default column names. *)
Definition default_loader : CSVTrajectoryLoader.t :=
  CSVTrajectoryLoader.mk "data.csv" "," "tid" (Some "label") "lat" "lon" [].

(** A loader that takes the labels from the tid column. *)
Definition tid_label_loader : CSVTrajectoryLoader.t :=
  CSVTrajectoryLoader.mk "data.csv" "," "tid" (Some "tid") "lat" "lon" [].

(** A loader with the default column names and no label column. *)
Definition unlabelled_loader : CSVTrajectoryLoader.t :=
  CSVTrajectoryLoader.mk "data.csv" "," "tid" None "lat" "lon" [].
End Scenario.

(** ** Vocabulary of the further properties *)

Module Layout.
Import Obj.

(** The ascending positions of the label [l] in [ls], counted from [k]. *)
Fixpoint positions_from (k : nat) (l : scalar) (ls : list scalar) : list nat :=
  match ls with
  | [] => []
  | x :: ls' =>
      (if decide (x = l) then [k] else []) ++ positions_from (S k) l ls'
  end.

Definition positions : scalar → list scalar → list nat := positions_from 0.

(** [i] is the last position of [t] in [tids]. *)
Definition last_position (tids : list scalar) (t : scalar) (i : nat) : Prop :=
  tids !! i = Some t ∧ ∀ j, (i < j)%nat → tids !! j ≠ Some t.

(** The instance [v] can hand out the trajectory and the label of [t]: its
    index knows [t], at a position that both arrays have. *)
Definition serves (v : updated) (t : scalar) : Prop :=
  ∃ i traj lv lab,
    Dict.get t (tidToIdx v) = Some i ∧
    data v !! i = Some traj ∧
    labels v = LArray lv ∧
    lv !! i = Some lab.



(** The tids that a merge appends: those of [todo] that [have] lacks, each
    once, in the order of [todo]. *)
Definition new_tids (have todo : list scalar) : list scalar :=
  Pandas.unique (filter (λ t, t ∉ have) todo).

(** The labels held by a label array; none in the array of [None]. *)
Definition label_values (l : labels_array) : list scalar :=
  match l with
  | LArray a => a
  | _ => []
  end.

(** The instance [v] can hand out the trajectory of [t]. *)
Definition holds (v : updated) (t : scalar) : Prop :=
  ∃ i traj, Dict.get t (tidToIdx v) = Some i ∧ data v !! i = Some traj.

(** An integer of numpy's [int64]. *)
Definition int64 (a : scalar) : bool :=
  match a with
  | SInt z => (- 2 ^ 63 <=? z)%Z && (z <? 2 ^ 63)%Z
  | SStr _ => false
  end.

(** numpy's fixed-width strings drop the NUL characters a string ends in. *)
Fixpoint ends_in_nul (s : string) : bool :=
  match s with
  | EmptyString => false
  | String c EmptyString => Ascii.eqb c Ascii.zero
  | String _ s' => ends_in_nul s'
  end.

Definition plain_str (a : scalar) : bool :=
  match a with
  | SInt _ => false
  | SStr s => negb (ends_in_nul s)
  end.

(** [np.array] stores the values of the list as they are, and hands each
    back as an equal value: they are all integers of [int64], or all
    strings that do not end in NUL.  Other lists are converted: integers
    next to strings become strings, integers beyond [int64] next to smaller
    ones become floating point numbers. *)
Definition np_exact (l : list scalar) : bool :=
  forallb int64 l || forallb plain_str l.

(** The same for the values of trajectories; a [None] among them makes an
    array of objects, which stores every value as it is. *)
Definition np_exact_data (data : list trajectory) : bool :=
  np_exact (omap id (concat (concat data))).

Definition same_length {A} (l : list (list A)) : bool :=
  match l with
  | [] => true
  | x :: l' => forallb (λ y, List.length y =? List.length x)%nat l'
  end.

(** [np.array(data)] accepts the nested list: the trajectories have the
    same number of points and the points the same number of values.  On
    any other nested list it raises [ValueError]. *)
Definition rectangular (data : list trajectory) : bool :=
  same_length data && same_length (concat data).

End Layout.

(** * Properties *)

(** ** The order on scalars *)

Section ScalarOrder.

Lemma string_leb_lt (a b : string) :
  String.leb a b = true ↔ a = b ∨ String_as_OT.lt a b.
Proof.
  unfold String.leb.
  destruct (String.compare a b) eqn:E; split; intros H; try done.
  - left. by apply String_as_OT.cmp_eq.
  - right. by apply String_as_OT.cmp_lt.
  - destruct H as [->|H].
    + assert (String_as_OT.cmp b b = Eq) as E' by by apply String_as_OT.cmp_eq.
      unfold String_as_OT.cmp in E'. congruence.
    + apply String_as_OT.cmp_lt in H. unfold String_as_OT.cmp in H. congruence.
Qed.

Lemma string_leb_trans (a b c : string) :
  String.leb a b = true → String.leb b c = true → String.leb a c = true.
Proof.
  rewrite !string_leb_lt. intros [->|H1] [->|H2]; auto.
  right. eapply String_as_OT.lt_trans; eauto.
Qed.

#[global] Instance scalar_le_total : Total scalar_le.
Proof.
  intros [x|x] [y|y]; unfold scalar_le; simpl; auto.
  - rewrite !Z.leb_le. lia.
  - apply String.leb_total.
Qed.

#[global] Instance scalar_le_trans : Transitive scalar_le.
Proof.
  intros [x|x] [y|y] [z|z]; unfold scalar_le; simpl; try done.
  - rewrite !Z.leb_le. lia.
  - apply string_leb_trans.
Qed.

#[global] Instance scalar_le_antisym : AntiSymm (=) scalar_le.
Proof.
  intros [x|x] [y|y]; unfold scalar_le; simpl; try done.
  - rewrite !Z.leb_le. intros. f_equal. lia.
  - intros H1 H2. f_equal. by apply String.leb_antisym.
Qed.

#[global] Instance scalar_le_refl : Reflexive scalar_le.
Proof. intros x. by destruct (total scalar_le x x). Qed.

End ScalarOrder.

(** ** Sorting and de-duplication *)

Section SortFacts.
Import Pandas.
Context {A : Type} (key : A → scalar).

Lemma insert_by_Permutation (x : A) (l : list A) :
  insert_by key x l ≡ₚ x :: l.
Proof.
  induction l as [|y l IH]; simpl; [done|].
  destruct (scalar_leb (key x) (key y)); [done|].
  rewrite IH. apply Permutation_swap.
Qed.

Lemma sort_by_Permutation (l : list A) : sort_by key l ≡ₚ l.
Proof.
  induction l as [|x l IH]; simpl; [done|].
  by rewrite insert_by_Permutation, IH.
Qed.

Lemma insert_by_Sorted (x : A) (l : list A) :
  Sorted (key_le key) l → Sorted (key_le key) (insert_by key x l).
Proof.
  induction 1 as [|y l Hl IH Hhd]; simpl.
  { repeat constructor. }
  destruct (scalar_leb (key x) (key y)) eqn:E.
  - repeat constructor; auto.
  - constructor; [done|].
    assert (key_le key y x) as Hyx.
    { unfold key_le. destruct (total scalar_le (key x) (key y)) as [H|H]; [|done].
      unfold scalar_le in H. congruence. }
    destruct Hhd as [|z l Hyz]; simpl.
    + by constructor.
    + destruct (scalar_leb (key x) (key z)); by constructor.
Qed.

Lemma sort_by_Sorted (l : list A) : Sorted (key_le key) (sort_by key l).
Proof.
  induction l as [|x l IH]; simpl; [constructor|].
  by apply insert_by_Sorted.
Qed.

Lemma insert_by_fmap (x : A) (l : list A) :
  key <$> insert_by key x l = insert_by id (key x) (key <$> l).
Proof.
  induction l as [|y l IH]; [done|].
  rewrite fmap_cons. cbn [insert_by id].
  destruct (scalar_leb (key x) (key y)); rewrite !fmap_cons; [done|].
  by rewrite IH.
Qed.

(** The keys of a list sorted on its keys are the sorted keys. *)
Lemma sort_by_fmap (l : list A) :
  key <$> sort_by key l = sort_scalars (key <$> l).
Proof.
  unfold sort_scalars.
  induction l as [|x l IH]; [done|].
  rewrite fmap_cons. cbn [sort_by].
  by rewrite insert_by_fmap, IH.
Qed.

End SortFacts.

Section UniqueFacts.
Import Pandas.

Lemma sort_scalars_Permutation (l : list scalar) : sort_scalars l ≡ₚ l.
Proof. apply sort_by_Permutation. Qed.

Lemma sort_scalars_Sorted (l : list scalar) : Sorted scalar_le (sort_scalars l).
Proof. apply (sort_by_Sorted id). Qed.

Lemma elem_of_sort_scalars (x : scalar) (l : list scalar) :
  x ∈ sort_scalars l ↔ x ∈ l.
Proof. by rewrite sort_scalars_Permutation. Qed.

Lemma elem_of_unique (x : scalar) (l : list scalar) : x ∈ unique l ↔ x ∈ l.
Proof.
  induction l as [|y l IH]; simpl; [done|].
  rewrite !elem_of_cons, list_elem_of_filter, IH.
  destruct (decide (x = y)); tauto.
Qed.

Lemma NoDup_unique (l : list scalar) : NoDup (unique l).
Proof.
  induction l as [|y l IH]; simpl; [constructor|].
  apply NoDup_cons. split.
  - rewrite list_elem_of_filter. by intros [? _].
  - by apply NoDup_filter.
Qed.

Lemma StronglySorted_filter (P : scalar → Prop) `{∀ x, Decision (P x)} (l : list scalar) :
  StronglySorted scalar_le l → StronglySorted scalar_le (filter P l).
Proof.
  induction 1 as [|x l Hl IH Hx]; simpl; [constructor|].
  rewrite filter_cons. destruct (decide (P x)); [|done].
  constructor; [done|].
  apply Forall_forall. intros y Hy. apply list_elem_of_filter in Hy as [_ Hy].
  rewrite Forall_forall in Hx. by apply Hx.
Qed.

Lemma unique_StronglySorted (l : list scalar) :
  StronglySorted scalar_le l → StronglySorted scalar_le (unique l).
Proof.
  induction 1 as [|x l Hl IH Hx]; simpl; [constructor|].
  constructor.
  - by apply StronglySorted_filter.
  - apply Forall_forall. intros y Hy.
    apply list_elem_of_filter in Hy as [_ Hy]. rewrite elem_of_unique in Hy.
    rewrite Forall_forall in Hx. by apply Hx.
Qed.

(** The distinct values of a sorted column are a sorted index exactly when
    that index has no duplicate key and holds the keys of the column. *)
Lemma unique_sorted_eq_iff (l m : list scalar) :
  unique (sort_scalars l) = sort_scalars m ↔
  NoDup m ∧ ∀ x, x ∈ m ↔ x ∈ l.
Proof.
  split.
  - intros E. split.
    + rewrite <- (sort_scalars_Permutation m), <- E. apply NoDup_unique.
    + intros x. by rewrite <- (elem_of_sort_scalars x m), <- E,
        elem_of_unique, elem_of_sort_scalars.
  - intros [Hnd Hel].
    apply (StronglySorted_unique scalar_le).
    + apply unique_StronglySorted, Sorted_StronglySorted; [apply _|].
      apply sort_scalars_Sorted.
    + apply Sorted_StronglySorted; [apply _|]. apply sort_scalars_Sorted.
    + apply NoDup_Permutation.
      * apply NoDup_unique.
      * by rewrite sort_scalars_Permutation.
      * intros x. by rewrite elem_of_unique, !elem_of_sort_scalars.
Qed.

End UniqueFacts.

(** ** Construction *)

Section Construction.
Import Pandas Obj TrajectoryData.

Lemma col_index_is_Some (c : string) (cols : list string) :
  is_Some (col_index c cols) ↔ c ∈ cols.
Proof.
  induction cols as [|c' cols IH]; simpl.
  - rewrite elem_of_nil. split; [by intros [? ?]|done].
  - rewrite elem_of_cons. destruct (String.eqb_spec c c') as [->|Hne].
    + split; eauto.
    + rewrite fmap_is_Some, IH. tauto.
Qed.

Lemma has_column_true (c : string) (df : DataFrame) :
  has_column c df = true ↔ ∃ i, col_index c (columns df) = Some i.
Proof.
  unfold has_column. rewrite bool_decide_eq_true, <- col_index_is_Some. done.
Qed.

Lemma column_Ok (c : string) (df : DataFrame) (cells : list scalar) :
  column c df = Ok cells ↔
  ∃ i, col_index c (columns df) = Some i ∧ cells = cell i <$> rows df.
Proof.
  unfold column. destruct (col_index c (columns df)) as [i|]; split.
  - intros [= <-]. eauto.
  - by intros (? & [= <-] & ->).
  - done.
  - by intros (? & ? & _).
Qed.

(** What [__init__] does on a table that has the column [tid], whose
    cells are [tids], and a label series [s]. *)
Lemma init_labelled (df : DataFrame) (s : Series) (i : nat) :
  col_index "tid" (columns df) = Some i →
  comparable (cell i <$> rows df) = true →
  comparable (index s) = true →
  TrajectoryData.__init__ df (Some s) =
    if bool_decide (unique (sort_scalars (cell i <$> rows df)) = sort_scalars (index s))
    then Ok (Obj.mk None (Init (mkDataFrame (columns df) (sort_by (cell i) (rows df)))
                               (sort_by fst s)))
    else Raise label_mismatch_error.
Proof.
  intros Hi Hc1 Hc2. unfold TrajectoryData.__init__.
  assert (has_column "tid" df = true) as -> by (apply has_column_true; eauto).
  unfold sort_values, sort_index. rewrite Hi, Hc1, Hc2. simpl.
  unfold column. simpl. rewrite Hi. simpl.
  unfold array_equal, index. rewrite !sort_by_fmap.
  by case_bool_decide.
Qed.

(** A successful construction: the table is sorted on [tid], the labels on
    their index, and nothing else is bound. *)
Lemma init_Ok_inv (df : DataFrame) (labels : option Series) (o : Obj.t) :
  TrajectoryData.__init__ df labels = Ok o →
  ∃ i s,
    labels = Some s ∧
    col_index "tid" (columns df) = Some i ∧
    unique (sort_scalars (cell i <$> rows df)) = sort_scalars (index s) ∧
    o = Obj.mk None (Init (mkDataFrame (columns df) (sort_by (cell i) (rows df)))
                          (sort_by fst s)).
Proof.
  unfold TrajectoryData.__init__.
  destruct (has_column "tid" df) eqn:Hc; simpl; [|done].
  apply has_column_true in Hc as [i Hi].
  unfold sort_values. rewrite Hi.
  destruct (comparable (cell i <$> rows df)) eqn:Hc1; simpl; [|done].
  destruct labels as [s|]; simpl; [|done].
  unfold sort_index. destruct (comparable (index s)) eqn:Hc2; simpl; [|done].
  unfold column. simpl. rewrite Hi. simpl.
  unfold array_equal, index. rewrite !sort_by_fmap.
  case_bool_decide as E; simpl; [|done].
  intros [= <-]. exists i, s. eauto.
Qed.

Lemma init_schema_error (df : DataFrame) (labels : option Series) :
  TrajectoryData.__init__ df labels = Raise schema_error ↔
  has_column "tid" df = false.
Proof.
  unfold TrajectoryData.__init__.
  destruct (has_column "tid" df) eqn:Hc; simpl; [|done].
  split; [|done].
  apply has_column_true in Hc as [i Hi].
  unfold sort_values. rewrite Hi.
  destruct (comparable (cell i <$> rows df)); simpl; [|done].
  destruct labels as [s|]; simpl; [|done].
  unfold sort_index. destruct (comparable (index s)); simpl; [|done].
  unfold column. simpl. rewrite Hi. simpl.
  by destruct (array_equal _ _).
Qed.

(** Construction without labels raises as soon as the table has been
    checked and sorted: [labels.sort_index()] is evaluated on [None]. *)
Lemma init_unlabelled (df : DataFrame) :
  (∀ o, TrajectoryData.__init__ df None ≠ Ok o) ∧
  (∀ tids, column "tid" df = Ok tids → comparable tids = true →
     TrajectoryData.__init__ df None = Raise (AttributeError "NoneType" "sort_index")).
Proof.
  split.
  - intros o H. by apply init_Ok_inv in H as (? & ? & ? & _).
  - intros tids (i & Hi & ->)%column_Ok Hc.
    unfold TrajectoryData.__init__.
    assert (has_column "tid" df = true) as -> by (apply has_column_true; eauto).
    unfold sort_values. by rewrite Hi, Hc.
Qed.

End Construction.

(** ** Claims on construction and loading *)

Section ConstructionClaims.
Import Pandas Obj.

(** C1 (the code departs from it): after every successful construction
    [length()] raises [AttributeError] instead of counting the distinct tids,
    because [__init__] binds [data] and [labels] only and [length] reads
    [self.tids]; [get_tids()] and [get_label(tid)] raise for the same
    reason. *)
Theorem C1_length_raises_after_construction
    (df : DataFrame) (labels : option Series) (o : Obj.t) :
  TrajectoryData.__init__ df labels = Ok o →
  TrajectoryData.length o = Raise (AttributeError "TrajectoryData" "tids") ∧
  TrajectoryData.get_tids None o = Raise (AttributeError "TrajectoryData" "tids") ∧
  ∀ tid, TrajectoryData.get_label tid o
         = Raise (AttributeError "TrajectoryData" "tidToIdx").
Proof.
  intros (i & s & _ & _ & _ & ->)%init_Ok_inv. by repeat split.
Qed.

(** The scenario of C1: construction succeeds, [get_labels(unique=True)] is
    [['a', 'b']], and the three other queries raise. *)
Lemma C1_scenario :
  TrajectoryData.__init__ Scenario.table (Some Scenario.labels) = Ok Scenario.constructed ∧
  TrajectoryData.get_labels true Scenario.constructed
    = Ok (TrajectoryData.SortedList [SStr "a"; SStr "b"]) ∧
  TrajectoryData.length Scenario.constructed
    = Raise (AttributeError "TrajectoryData" "tids") ∧
  TrajectoryData.get_tids None Scenario.constructed
    = Raise (AttributeError "TrajectoryData" "tids") ∧
  TrajectoryData.get_label (SInt 1) Scenario.constructed
    = Raise (AttributeError "TrajectoryData" "tidToIdx").
Proof.
  assert (TrajectoryData.__init__ Scenario.table (Some Scenario.labels)
          = Ok Scenario.constructed) as H by (vm_compute; reflexivity).
  destruct (C1_length_raises_after_construction _ _ _ H) as (H1 & H2 & H3).
  split; [exact H|]. split; [vm_compute; reflexivity|].
  split; [exact H1|]. split; [exact H2|]. exact (H3 (SInt 1)).
Defined.

(** C2 (the code departs from it): a load with no label column never
    returns a dataset; on a table whose tid column is present and sortable it
    raises [AttributeError], since [__init__] calls [labels.sort_index()] on
    [None].  Nothing is allocated. *)
Theorem C2_unlabelled_load_raises
    (ld : CSVTrajectoryLoader.t) (table : DataFrame) (w : world) :
  CSVTrajectoryLoader.label_col ld = None →
  (∀ r, (CSVTrajectoryLoader.load ld table w).1 ≠ Ok r) ∧
  (CSVTrajectoryLoader.load ld table w).2 = w ∧
  (∀ tids,
     column "tid" (CSVTrajectoryLoader.read_renamed ld table) = Ok tids →
     comparable tids = true →
     (CSVTrajectoryLoader.load ld table w).1
       = Raise (AttributeError "NoneType" "sort_index")).
Proof.
  intros Hl. unfold CSVTrajectoryLoader.load. rewrite Hl.
  unfold TrajectoryData.new, mbind, M_bind, lift.
  destruct (init_unlabelled (CSVTrajectoryLoader.read_renamed ld table)) as [Hno Hattr].
  destruct (TrajectoryData.__init__ _ None) as [o|e] eqn:E.
  { by destruct (Hno o). }
  simpl. repeat split; [done|].
  intros tids Ht Hc. specialize (Hattr tids Ht Hc). congruence.
Qed.

Lemma C2_scenario :
  (CSVTrajectoryLoader.load Scenario.unlabelled_loader Scenario.table Scenario.empty_world).1
    = Raise (AttributeError "NoneType" "sort_index") ∧
  (CSVTrajectoryLoader.load Scenario.unlabelled_loader Scenario.table Scenario.empty_world).2
    = Scenario.empty_world.
Proof.
  destruct (C2_unlabelled_load_raises Scenario.unlabelled_loader Scenario.table
              Scenario.empty_world eq_refl) as (_ & Hw & Hraise).
  split; [|exact Hw].
  apply (Hraise [SInt 2; SInt 2; SInt 1; SInt 1]); vm_compute; reflexivity.
Defined.

(** C4 as stated fails: the label keys [1, 1, 2] de-duplicate to the sorted
    distinct tids [1, 2] of the table, and construction still raises the
    label mismatch error. *)
Lemma C4_repeated_key_counterexample :
  column "tid" Scenario.table = Ok [SInt 2; SInt 2; SInt 1; SInt 1] ∧
  unique (sort_scalars (index Scenario.repeated_key_labels))
    = unique (sort_scalars [SInt 2; SInt 2; SInt 1; SInt 1]) ∧
  TrajectoryData.__init__ Scenario.table (Some Scenario.repeated_key_labels)
    = Raise TrajectoryData.label_mismatch_error.
Proof. vm_compute. by repeat split. Qed.

(** C4, amended: construction raises the schema error exactly when the
    column [tid] is missing.  When the column is present in a table whose
    column names are distinct, labels are given, and the tids and the label
    keys can each be sorted, it raises the label mismatch error exactly when
    the sorted label keys, duplicates kept, differ from the sorted distinct
    tids, which is the case unless the label keys are free of duplicates and
    are exactly the tids of the table; otherwise it returns the object. *)
Theorem C4_construction_errors (df : DataFrame) :
  (∀ labels,
     TrajectoryData.__init__ df labels = Raise TrajectoryData.schema_error ↔
     has_column "tid" df = false) ∧
  (∀ s tids,
     NoDup (columns df) →
     column "tid" df = Ok tids →
     comparable tids = true →
     comparable (index s) = true →
     (TrajectoryData.__init__ df (Some s) = Raise TrajectoryData.label_mismatch_error ↔
      sort_scalars (index s) ≠ unique (sort_scalars tids)) ∧
     (sort_scalars (index s) = unique (sort_scalars tids) ↔
      NoDup (index s) ∧ ∀ t, t ∈ index s ↔ t ∈ tids) ∧
     (sort_scalars (index s) = unique (sort_scalars tids) →
      ∃ o, TrajectoryData.__init__ df (Some s) = Ok o)).
Proof.
  split; [intros labels; apply init_schema_error|].
  intros s tids _ (i & Hi & ->)%column_Ok Hc1 Hc2.
  rewrite (init_labelled df s i Hi Hc1 Hc2).
  split; [|split].
  - case_bool_decide as E; split; done.
  - rewrite <- unique_sorted_eq_iff. split; by intros ->.
  - intros E. rewrite bool_decide_eq_true_2 by done. eauto.
Qed.

Lemma C4_scenario :
  ∃ o, TrajectoryData.__init__ Scenario.table (Some Scenario.labels) = Ok o.
Proof.
  destruct (C4_construction_errors Scenario.table) as [_ H].
  destruct (H Scenario.labels [SInt 2; SInt 2; SInt 1; SInt 1]) as (_ & _ & Hok);
    [apply (bool_decide_unpack _); vm_compute; exact I|vm_compute; reflexivity ..|].
  apply Hok. vm_compute. reflexivity.
Defined.

End ConstructionClaims.

(** ** Merge *)

Section Merge.
Import Pandas Obj Layout.

(** [merge] on two live references: the candidate is built first, the
    receiver is rebound last. *)
Lemma merge_unfold (w : world) (self other : ref) (s o : Obj.t)
    (ignore_duplicates inplace : bool) :
  heap w !! self = Some s →
  heap w !! other = Some o →
  TrajectoryData.merge self other ignore_duplicates inplace w =
    match TrajectoryData.merge_candidate s o ignore_duplicates with
    | Raise e => (Raise e, w)
    | Ok c =>
        if inplace then
          (Ok self,
           mkWorld (<[self := Obj.mk (attributes s)
                                (Upd (TrajectoryData.bindings
                                        (TrajectoryData.n_data c.2)
                                        (TrajectoryData.n_tids c.2)
                                        (TrajectoryData.n_labels c.2)))]> (heap w))
                   (files w) (stdout w))
        else
          (Raise (TypeError "__init__() takes from 2 to 3 positional arguments but 5 were given"), w)
    end.
Proof.
  intros Hs Ho.
  unfold TrajectoryData.merge, mbind, M_bind, deref, lift. rewrite Hs, Ho.
  destruct (TrajectoryData.merge_candidate s o ignore_duplicates) as [c|e]; [|done].
  destruct inplace; [|done].
  unfold TrajectoryData._update, mbind, M_bind, deref, store. by rewrite Hs.
Qed.

(** A receiver without [attributes] stops [merge] at its first statement. *)
Lemma merge_without_attributes (w : world) (self other : ref) (s o : Obj.t)
    (ignore_duplicates inplace : bool) :
  heap w !! self = Some s →
  heap w !! other = Some o →
  attributes s = None →
  TrajectoryData.merge self other ignore_duplicates inplace w
    = (Raise (AttributeError "TrajectoryData" "attributes"), w).
Proof.
  intros Hs Ho Ha. rewrite (merge_unfold w self other s o) by done.
  unfold TrajectoryData.merge_candidate, TrajectoryData.get_attributes.
  by rewrite Ha.
Qed.

Lemma init_attributes_unbound (df : DataFrame) (labels : option Series) (o : Obj.t) :
  TrajectoryData.__init__ df labels = Ok o → attributes o = None.
Proof. by intros (i & s & _ & _ & _ & ->)%init_Ok_inv. Qed.

(** Whatever the instances, [merge] without [inplace] returns nothing and
    changes nothing. *)
Lemma merge_not_inplace (w : world) (self other : ref) (ignore_duplicates : bool) :
  ∃ e, TrajectoryData.merge self other ignore_duplicates false w = (Raise e, w).
Proof.
  unfold TrajectoryData.merge, mbind, M_bind, deref, lift.
  destruct (heap w !! self) as [s|]; [|eauto].
  destruct (heap w !! other) as [o|]; [|eauto].
  destruct (TrajectoryData.merge_candidate s o ignore_duplicates); eauto.
Qed.

(** A [merge] that raises leaves the world as it was. *)
Lemma merge_raise_world (w w' : world) (self other : ref)
    (ignore_duplicates inplace : bool) (e : exn) :
  TrajectoryData.merge self other ignore_duplicates inplace w = (Raise e, w') →
  w' = w.
Proof.
  unfold TrajectoryData.merge, mbind, M_bind, deref, lift.
  destruct (heap w !! self) as [s|] eqn:Hs; [|by intros [= _ <-]].
  destruct (heap w !! other) as [o|]; [|by intros [= _ <-]].
  destruct (TrajectoryData.merge_candidate s o ignore_duplicates); [|by intros [= _ <-]].
  destruct inplace; [|by intros [= _ <-]].
  unfold TrajectoryData._update, mbind, M_bind, deref, store. by rewrite Hs.
Qed.

(** The loop of [merge] only appends: the tids, trajectories and labels it
    starts from are kept, and one trajectory (and one label, when the
    receiver has a label list) is appended for each appended tid, each of
    them a tid of [other] that the receiver did not have. *)
Lemma merge_loop_appends (other : Obj.t) (ignore_duplicates : bool)
    (todo : list scalar) (n n' : TrajectoryData.working) :
  TrajectoryData.merge_loop other ignore_duplicates todo n = Ok n' →
  ∃ ts ds,
    TrajectoryData.n_tids n' = TrajectoryData.n_tids n ++ ts ∧
    TrajectoryData.n_data n' = TrajectoryData.n_data n ++ ds ∧
    List.length ds = List.length ts ∧
    (∀ t, t ∈ ts → t ∈ todo ∧ t ∉ TrajectoryData.n_tids n) ∧
    match TrajectoryData.n_labels n with
    | Some ls => ∃ ls', TrajectoryData.n_labels n' = Some (ls ++ ls') ∧
                        List.length ls' = List.length ts
    | None => TrajectoryData.n_labels n' = None
    end.
Proof.
  revert n. induction todo as [|tid todo IH]; intros n; simpl.
  { intros [= <-]. exists [], []. rewrite !app_nil_r. split_and!; try done.
    - by intros t ?%elem_of_nil.
    - destruct (TrajectoryData.n_labels n); [|done].
      exists []. by rewrite app_nil_r. }
  case_bool_decide as Hin.
  { destruct ignore_duplicates; [|done].
    intros (ts & ds & ? & ? & ? & Hts & ?)%IH. exists ts, ds.
    split_and!; try done. intros t Ht. split; [right|]; by apply Hts. }
  destruct (TrajectoryData.get_trajectory tid other) as [traj|]; simpl; [|done].
  assert (∀ ts : list scalar,
            (∀ t, t ∈ ts → t ∈ todo ∧ t ∉ TrajectoryData.n_tids n ++ [tid]) →
            ∀ t, t ∈ tid :: ts → t ∈ tid :: todo ∧ t ∉ TrajectoryData.n_tids n) as Hstep.
  { intros ts Hts t [->|Ht]%elem_of_cons.
    - split; [left|done].
    - apply Hts in Ht as [? Hn]. split; [by right|].
      rewrite elem_of_app in Hn. tauto. }
  destruct (TrajectoryData.n_labels n) as [ls|] eqn:Hl; simpl.
  - destruct (TrajectoryData.get_label tid other) as [lab|]; simpl; [|done].
    intros (ts & ds & Ht & Hd & Hlen & Hts & ls' & Hls & Hlen')%IH. simpl in *.
    exists (tid :: ts), (traj :: ds). rewrite <- !app_assoc in *. simpl.
    split_and!; try done; [lia|by apply Hstep|].
    exists (lab :: ls'). simpl. split; [done|lia].
  - intros (ts & ds & Ht & Hd & Hlen & Hts & Hls)%IH. simpl in *.
    exists (tid :: ts), (traj :: ds). rewrite <- !app_assoc in *. simpl.
    split_and!; try done; [lia|by apply Hstep].
Qed.

Lemma unique_filter (P : scalar → Prop) `{∀ x, Decision (P x)} (l : list scalar) :
  unique (filter P l) = filter P (unique l).
Proof.
  induction l as [|x l IH]; [done|].
  cbn [unique]. rewrite !filter_cons.
  destruct (decide (P x)) as [HP|HP]; cbn [unique].
  - f_equal. rewrite IH, !list_filter_filter. apply list_filter_iff. tauto.
  - rewrite IH, list_filter_filter. apply list_filter_iff.
    intros y. split; [|tauto]. intros Hy. split; [done|]. by intros ->.
Qed.

Lemma new_tids_cons_old (have todo : list scalar) (t : scalar) :
  t ∈ have → new_tids have (t :: todo) = new_tids have todo.
Proof. intros Hin. unfold new_tids. by rewrite filter_cons_False by tauto. Qed.

Lemma new_tids_cons_new (have todo : list scalar) (t : scalar) :
  t ∉ have → new_tids have (t :: todo) = t :: new_tids (have ++ [t]) todo.
Proof.
  intros Hnin. unfold new_tids. rewrite filter_cons_True by done.
  cbn [unique]. f_equal. rewrite !unique_filter, list_filter_filter.
  apply list_filter_iff. intros y.
  rewrite elem_of_app, list_elem_of_singleton. tauto.
Qed.

Lemma elem_of_new_tids (have todo : list scalar) (t : scalar) :
  t ∈ new_tids have todo ↔ t ∈ todo ∧ t ∉ have.
Proof.
  unfold new_tids. rewrite elem_of_unique, list_elem_of_filter. tauto.
Qed.

(** The loop of [merge], when it returns, has appended the tids of [todo]
    that the receiver lacked, each once and in the order of [todo], with
    the trajectory that [other] hands out for each, and its label when the
    receiver has a label list. *)
Lemma merge_loop_Ok_new_tids (other : Obj.t) (ignore_duplicates : bool)
    (todo : list scalar) (n n' : TrajectoryData.working) :
  TrajectoryData.merge_loop other ignore_duplicates todo n = Ok n' →
  ∃ ds,
    TrajectoryData.n_tids n'
      = TrajectoryData.n_tids n ++ new_tids (TrajectoryData.n_tids n) todo ∧
    TrajectoryData.n_data n' = TrajectoryData.n_data n ++ ds ∧
    Forall2 (λ t d, TrajectoryData.get_trajectory t other = Ok d)
            (new_tids (TrajectoryData.n_tids n) todo) ds ∧
    match TrajectoryData.n_labels n with
    | Some ls =>
        ∃ ls', TrajectoryData.n_labels n' = Some (ls ++ ls') ∧
               Forall2 (λ t lab, TrajectoryData.get_label t other = Ok lab)
                       (new_tids (TrajectoryData.n_tids n) todo) ls'
    | None => TrajectoryData.n_labels n' = None
    end.
Proof.
  revert n. induction todo as [|tid todo IH]; intros n.
  { cbn [TrajectoryData.merge_loop]. intros [= <-]. exists [].
    rewrite !app_nil_r. split_and!; try done.
    destruct (TrajectoryData.n_labels n); [|done].
    exists []. by rewrite app_nil_r. }
  cbn [TrajectoryData.merge_loop]. case_bool_decide as Hin.
  { rewrite new_tids_cons_old by done.
    destruct ignore_duplicates; [apply IH|done]. }
  rewrite new_tids_cons_new by done.
  destruct (TrajectoryData.get_trajectory tid other) as [traj|] eqn:Htraj; simpl; [|done].
  destruct (TrajectoryData.n_labels n) as [ls|] eqn:Hl; simpl.
  - destruct (TrajectoryData.get_label tid other) as [lab|] eqn:Hlab; simpl; [|done].
    intros (ds & Ht & Hd & Hds & ls' & Hls & Hlabs)%IH. simpl in *.
    exists (traj :: ds). rewrite <- !app_assoc in *. simpl.
    split_and!; [done|done|by constructor|].
    exists (lab :: ls'). split; [done|by constructor].
  - intros (ds & Ht & Hd & Hds & Hls)%IH. simpl in *.
    exists (traj :: ds). rewrite <- !app_assoc in *. simpl.
    split_and!; [done|done|by constructor|done].
Qed.

Lemma holds_get (o : Obj.t) (v : updated) (t : scalar) :
  env o = Upd v → holds v t → ∃ traj, TrajectoryData.get_trajectory t o = Ok traj.
Proof.
  intros Hv (i & traj & Hi & Hd). exists traj.
  unfold TrajectoryData.get_trajectory. rewrite Hv.
  unfold Dict.subscript. rewrite Hi. simpl.
  unfold TrajectoryData.item. by rewrite Hd.
Qed.

(** A receiver without a label list asks the other instance for
    trajectories only. *)
Lemma merge_loop_without_labels (o : Obj.t) (v : updated) (todo : list scalar)
    (n : TrajectoryData.working) :
  env o = Upd v →
  TrajectoryData.n_labels n = None →
  (∀ t, t ∈ todo → t ∉ TrajectoryData.n_tids n → holds v t) →
  ∃ n', TrajectoryData.merge_loop o true todo n = Ok n'.
Proof.
  intros Hv. revert n. induction todo as [|t todo IH]; intros n Hl Hholds.
  { by exists n. }
  cbn [TrajectoryData.merge_loop]. case_bool_decide as Hin.
  { apply IH; [done|]. intros t' Ht'. apply Hholds. by right. }
  destruct (holds_get o v t Hv) as (traj & ->).
  { apply Hholds; [by left|done]. }
  rewrite Hl. simpl. apply IH; [done|].
  simpl. intros t' Ht' Hn. apply Hholds; [by right|].
  rewrite elem_of_app in Hn. tauto.
Qed.

End Merge.

(** ** Claims on merge *)

Section MergeClaims.
Import Pandas Obj Layout.

(** A successful [merge] was called with [inplace], on a receiver in the
    array representation, and rebinds the receiver to its old arrays with
    the new tids, trajectories and labels appended. *)
Lemma merge_Ok_inv (w w' : world) (self other r : ref)
    (ignore_duplicates inplace : bool) :
  TrajectoryData.merge self other ignore_duplicates inplace w = (Ok r, w') →
  r = self ∧
  ∃ a u v o ts ds labs,
    heap w !! self = Some (Obj.mk a (Upd u)) ∧
    heap w !! other = Some o ∧ env o = Upd v ∧
    w' = mkWorld
           (<[self := Obj.mk a (Upd (TrajectoryData.bindings
                                       (data u ++ ds) (tids u ++ ts) labs))]> (heap w))
           (files w) (stdout w) ∧
    List.length ds = List.length ts ∧
    (∀ t, t ∈ ts → t ∈ tids v ∧ t ∉ tids u) ∧
    match labels u with
    | LArray ls => ∃ ls', labs = Some (ls ++ ls') ∧ List.length ls' = List.length ts
    | _ => labs = None
    end.
Proof.
  intros Hm.
  destruct (heap w !! self) as [s|] eqn:Hs.
  2: { unfold TrajectoryData.merge, mbind, M_bind, deref in Hm. by rewrite Hs in Hm. }
  destruct (heap w !! other) as [o|] eqn:Ho.
  2: { unfold TrajectoryData.merge, mbind, M_bind, deref in Hm. by rewrite Hs, Ho in Hm. }
  rewrite (merge_unfold w self other s o) in Hm by done.
  destruct (TrajectoryData.merge_candidate s o ignore_duplicates) as [[sa n]|] eqn:Hc;
    [|done].
  destruct inplace; [|done]. injection Hm as <- <-. split; [done|].
  unfold TrajectoryData.merge_candidate in Hc.
  destruct (TrajectoryData.get_attributes s) as [sa'|]; simpl in Hc; [|done].
  destruct (TrajectoryData.get_attributes o) as [oa|]; simpl in Hc; [|done].
  destruct (TrajectoryData.set_ne sa' oa); [done|].
  destruct s as [a [|u]]; simpl in Hc; [done|].
  destruct (TrajectoryData.labels_tolist (labels u)) as [ls|] eqn:Hl; simpl in Hc; [|done].
  destruct (env o) as [|v] eqn:Hv; simpl in Hc; [done|].
  destruct (TrajectoryData.merge_loop o ignore_duplicates (tids v) _) as [n'|] eqn:Hloop;
    simpl in Hc; [|done].
  injection Hc as <- <-.
  apply merge_loop_appends in Hloop as (ts & ds & Ht & Hd & Hlen & Hts & Hls).
  simpl in *. exists a, u, v, o, ts, ds, (TrajectoryData.n_labels n').
  rewrite Ht, Hd. split_and!; try done.
  destruct (labels u); simpl in Hl; try done; by injection Hl as <-.
Qed.

(** C3 (the code departs from it): [merge] on a constructed receiver raises
    [AttributeError] at its first statement, whatever the flags, because no
    statement of the class binds [attributes]; and on any instances at all
    [merge(inplace=False)] returns no dataset, since it ends in a call of
    the constructor with four arguments.  Neither input is changed. *)
Theorem C3_merge_raises
    (w : world) (self other : ref) (s o : Obj.t)
    (df : DataFrame) (labels : option Series) (ignore_duplicates inplace : bool) :
  heap w !! self = Some s →
  heap w !! other = Some o →
  TrajectoryData.__init__ df labels = Ok s →
  TrajectoryData.merge self other ignore_duplicates inplace w
    = (Raise (AttributeError "TrajectoryData" "attributes"), w) ∧
  ∀ (w0 : world) (self0 other0 : ref),
    ∃ e, TrajectoryData.merge self0 other0 ignore_duplicates false w0 = (Raise e, w0).
Proof.
  intros Hs Ho Hinit. split.
  - eapply merge_without_attributes; eauto using init_attributes_unbound.
  - intros. apply merge_not_inplace.
Qed.

Lemma C3_scenario :
  TrajectoryData.merge Scenario.d0 Scenario.d1 true true Scenario.two_constructed
    = (Raise (AttributeError "TrajectoryData" "attributes"), Scenario.two_constructed) ∧
  TrajectoryData.merge Scenario.d0 Scenario.d1 true false Scenario.two_constructed
    = (Raise (AttributeError "TrajectoryData" "attributes"), Scenario.two_constructed).
Proof.
  split.
  - apply (C3_merge_raises Scenario.two_constructed Scenario.d0 Scenario.d1 Scenario.constructed
             Scenario.other_constructed Scenario.table (Some Scenario.labels) true true);
      vm_compute; reflexivity.
  - apply (C3_merge_raises Scenario.two_constructed Scenario.d0 Scenario.d1 Scenario.constructed
             Scenario.other_constructed Scenario.table (Some Scenario.labels) true false);
      vm_compute; reflexivity.
Defined.

(** C5 (the code departs from it): two constructed datasets share the tid
    [tid]; [merge] with [ignore_duplicates=False] raises [AttributeError] on
    [attributes], not the exception that names the tid.  The world is left
    as it was. *)
Theorem C5_duplicate_merge_raises_attribute_error
    (w : world) (self other : ref) (s o : Obj.t)
    (df1 df2 : DataFrame) (l1 l2 : option Series)
    (tids1 tids2 : list scalar) (tid : scalar) (inplace : bool) :
  heap w !! self = Some s →
  heap w !! other = Some o →
  TrajectoryData.__init__ df1 l1 = Ok s →
  TrajectoryData.__init__ df2 l2 = Ok o →
  column "tid" df1 = Ok tids1 → column "tid" df2 = Ok tids2 →
  tid ∈ tids1 → tid ∈ tids2 →
  ∃ e, TrajectoryData.merge self other false inplace w = (Raise e, w) ∧
       e = AttributeError "TrajectoryData" "attributes" ∧
       e ≠ PyException [SStr "tid"; tid; SStr "already exists in 'self'!"].
Proof.
  intros Hs Ho H1 _ _ _ _ _. eexists. split_and!; [|done|done].
  eapply merge_without_attributes; eauto using init_attributes_unbound.
Qed.

Lemma C5_scenario :
  ∃ e, TrajectoryData.merge Scenario.d0 Scenario.d1 false true Scenario.two_constructed
         = (Raise e, Scenario.two_constructed) ∧
       e = AttributeError "TrajectoryData" "attributes" ∧
       e ≠ PyException [SStr "tid"; SInt 1; SStr "already exists in 'self'!"].
Proof.
  apply (C5_duplicate_merge_raises_attribute_error Scenario.two_constructed Scenario.d0 Scenario.d1
           Scenario.constructed Scenario.other_constructed
           Scenario.table Scenario.other_table
           (Some Scenario.labels) (Some Scenario.other_labels)
           [SInt 2; SInt 2; SInt 1; SInt 1] [SInt 1; SInt 3] (SInt 1) true);
    try (vm_compute; reflexivity).
  - apply (bool_decide_unpack _). vm_compute. exact I.
  - apply (bool_decide_unpack _). vm_compute. exact I.
Defined.


(** The instance [one_short] of the scenarios is what [_update] binds. *)
Example one_short_by_update :
  (TrajectoryData._update Scenario.d0 ["poi"]
     [[[Some (SStr "park")]]] [SInt 1] (Some [SStr "b"])
     (mkWorld [Obj.mk (Some ["poi"]) (Obj.env Scenario.other_constructed)] ∅ [])).2
  = mkWorld [Scenario.one_short] ∅ [].
Proof. vm_compute. reflexivity. Qed.




(** C10 as stated fails: two instances that [_update] bound with
    [labels=None], with equal attributes, no tid in common and trajectories
    of one shape, merge in place; the receiver then holds both tids.  Such
    an instance does not hold [None] but the array [np.array(None)], whose
    [tolist()] is [None]. *)
Lemma C10_merge_without_labels_counterexample :
  (TrajectoryData._update Scenario.d0 ["poi"] [[[Some (SStr "home")]]] [SInt 5] None
     (mkWorld [Obj.mk (Some ["poi"]) (Obj.env Scenario.constructed)] ∅ [])).2
    = mkWorld [Scenario.bare_five] ∅ [] ∧
  (TrajectoryData._update Scenario.d0 ["poi"] [[[Some (SStr "park")]]] [SInt 1] None
     (mkWorld [Obj.mk (Some ["poi"]) (Obj.env Scenario.other_constructed)] ∅ [])).2
    = mkWorld [Scenario.bare_one_short] ∅ [] ∧
  ∃ w',
    TrajectoryData.merge Scenario.d0 Scenario.d1 true true Scenario.two_bare_aligned
      = (Ok Scenario.d0, w') ∧
    (TrajectoryData.get_tids None <$> heap w' !! Scenario.d0)
      = Some (Ok [SInt 5; SInt 1]).
Proof.
  split; [vm_compute; reflexivity|]. split; [vm_compute; reflexivity|].
  eexists. split; vm_compute; reflexivity.
Qed.

(** C10, amended.  When [labels] is [None] on both sides, [merge] raises
    whatever the flags and leaves the world as it was; once the attribute
    sets are bound and equal, the error is the [AttributeError] of
    [self.labels.tolist()] on [None].  When both sides were bound without
    labels by [_update], so that [labels] is the array of [None], have
    equal attribute sets, and the other instance holds a trajectory for
    each tid the receiver lacks, the merge in place that skips duplicates
    returns the receiver: the missing tids and their trajectories are
    appended and the receiver is still without labels.  The tids and the
    trajectory values are of one type that numpy stores as it is, and the
    trajectories of the two instances form a rectangular block. *)
Theorem C10_merge_without_labels :
  (∀ (w : world) (self other : ref) (s o : Obj.t) (ignore_duplicates inplace : bool),
     heap w !! self = Some s →
     heap w !! other = Some o →
     unlabelled s →
     unlabelled o →
     (∃ e, TrajectoryData.merge self other ignore_duplicates inplace w = (Raise e, w)) ∧
     (∀ sa oa,
        attributes s = Some sa → attributes o = Some oa →
        TrajectoryData.set_ne sa oa = false →
        TrajectoryData.merge self other ignore_duplicates inplace w
          = (Raise (AttributeError "NoneType" "tolist"), w))) ∧
  (∀ (w : world) (self other : ref) (sa oa : list string) (u v : updated),
     heap w !! self = Some (Obj.mk (Some sa) (Upd u)) →
     heap w !! other = Some (Obj.mk (Some oa) (Upd v)) →
     TrajectoryData.set_ne sa oa = false →
     labels u = LArray0 →
     labels v = LArray0 →
     (∀ t, t ∈ tids v → t ∉ tids u → holds v t) →
     rectangular (data u ++ data v) = true →
     np_exact (tids u ++ tids v) = true →
     np_exact_data (data u ++ data v) = true →
     ∃ w' u' ds,
       TrajectoryData.merge self other true true w = (Ok self, w') ∧
       heap w' !! self = Some (Obj.mk (Some sa) (Upd u')) ∧
       tids u' = tids u ++ new_tids (tids u) (tids v) ∧
       data u' = data u ++ ds ∧
       Forall2 (λ t d, TrajectoryData.get_trajectory t (Obj.mk (Some oa) (Upd v)) = Ok d)
               (new_tids (tids u) (tids v)) ds ∧
       labels u' = LArray0).
Proof.
  split.
  - intros w self other s o ignore_duplicates inplace Hs Ho Hu _.
    rewrite (merge_unfold w self other s o) by done.
    unfold TrajectoryData.merge_candidate, TrajectoryData.get_attributes.
    destruct s as [a [|u]]; simpl in *; [done|]. rewrite Hu. simpl.
    split.
    + destruct a as [sa|]; simpl; [|eauto].
      destruct (attributes o) as [oa|]; simpl; [|eauto].
      destruct (TrajectoryData.set_ne sa oa); eauto.
    + intros sa oa -> -> Hne. simpl. by rewrite Hne.
  - intros w self other sa oa u v Hs Ho Hne Hl _ Hholds _ _ _.
    rewrite (merge_unfold w self other _ _ true true Hs Ho).
    unfold TrajectoryData.merge_candidate. simpl. rewrite Hne, Hl. simpl.
    destruct (merge_loop_without_labels (Obj.mk (Some oa) (Upd v)) v (tids v)
                (TrajectoryData.mkWorking (tids u) (data u) None)
                eq_refl eq_refl Hholds) as (n' & Hloop).
    rewrite Hloop. simpl.
    apply merge_loop_Ok_new_tids in Hloop as (ds & Ht & Hd & Hds & Hls).
    destruct n' as [nt nd nl]. simpl in *. subst nt nd nl.
    eexists _, (TrajectoryData.bindings (data u ++ ds)
                  (tids u ++ new_tids (tids u) (tids v)) None), ds.
    split_and!; [reflexivity| |done|done|done|done].
    simpl. apply list_lookup_insert_eq. by eapply lookup_lt_Some.
Qed.

Lemma C10_scenario :
  TrajectoryData.merge Scenario.d0 Scenario.d1 true true Scenario.two_unlabelled
    = (Raise (AttributeError "NoneType" "tolist"), Scenario.two_unlabelled) ∧
  ∃ w' u',
    TrajectoryData.merge Scenario.d0 Scenario.d1 true true Scenario.two_bare_aligned
      = (Ok Scenario.d0, w') ∧
    heap w' !! Scenario.d0 = Some (Obj.mk (Some ["poi"]) (Upd u')) ∧
    tids u' = [SInt 5] ++ new_tids [SInt 5] [SInt 1] ∧
    labels u' = LArray0.
Proof.
  destruct C10_merge_without_labels as [Hnone Hbare]. split.
  - destruct (Hnone Scenario.two_unlabelled Scenario.d0 Scenario.d1
                Scenario.unlabelled_five Scenario.unlabelled_one true true
                eq_refl eq_refl eq_refl eq_refl) as [_ H].
    apply (H ["poi"] ["poi"]); vm_compute; reflexivity.
  - destruct (Hbare Scenario.two_bare_aligned Scenario.d0 Scenario.d1 ["poi"] ["poi"]
                {| Obj.tids := [SInt 5];
                   Obj.labels := LArray0;
                   Obj.data := [[[Some (SStr "home")]]];
                   Obj.tidToIdx := [(SInt 5, O)];
                   Obj.labelToIdx := None;
                   Obj._stats := None |}
                {| Obj.tids := [SInt 1];
                   Obj.labels := LArray0;
                   Obj.data := [[[Some (SStr "park")]]];
                   Obj.tidToIdx := [(SInt 1, O)];
                   Obj.labelToIdx := None;
                   Obj._stats := None |}
                eq_refl eq_refl eq_refl eq_refl eq_refl)
      as (w' & u' & ds & Hm & Hs' & Ht & _ & _ & Hl).
    + intros t Ht _. simpl in Ht. apply list_elem_of_singleton in Ht as ->.
      exists O, [[Some (SStr "park")]]. split; reflexivity.
    + reflexivity.
    + reflexivity.
    + reflexivity.
    + exists w', u'. split_and!; assumption.
Defined.

End MergeClaims.

(** ** Claims on the loader's labels *)

Section LoaderClaims.
Import Pandas Obj.

Lemma drop_duplicates_sub (s : Series) (p : scalar * scalar) :
  p ∈ drop_duplicates s → p ∈ s.
Proof.
  induction s as [|q s IH]; simpl; [done|].
  rewrite !elem_of_cons, list_elem_of_filter. intros [->|[_ H]]; auto.
Qed.


(** Dropping columns leaves the cells of a kept column as they are. *)
Lemma col_index_select (keep : string → bool) (c : string) (cols : list string) (i : nat) :
  col_index c cols = Some i →
  keep c = true →
  ∃ i', col_index c (List.filter keep cols) = Some i' ∧
        ∀ r : list scalar, cell i' (drop_where (λ c', negb (keep c')) cols r) = cell i r.
Proof.
  revert i. induction cols as [|c0 cols IH]; intros i; simpl; [done|].
  destruct (String.eqb_spec c c0) as [<-|Hne].
  - intros [= <-] Hk. exists O. rewrite Hk. simpl. rewrite String.eqb_refl.
    split; [done|]. by intros [|x r].
  - destruct (col_index c cols) as [j|] eqn:Hj; simpl; [|done].
    intros [= <-] Hk. destruct (IH j eq_refl Hk) as (j' & Hj' & Hcell).
    destruct (keep c0) eqn:Hk0; simpl.
    + destruct (String.eqb_spec c c0); [done|]. rewrite Hj'. simpl.
      exists (S j'). split; [done|]. intros [|x r]; [done|]. simpl. apply Hcell.
    + exists j'. split; [done|]. intros [|x r]; simpl.
      * unfold cell. by destruct j'.
      * apply Hcell.
Qed.

Lemma column_drop (c c' : string) (df df' : DataFrame) (cells : list scalar) :
  c ≠ c' →
  column c df = Ok cells →
  drop c' df = Ok df' →
  column c df' = Ok cells.
Proof.
  intros Hne (i & Hi & ->)%column_Ok. unfold drop.
  destruct (has_column c' df); [|done]. intros [= <-].
  destruct (col_index_select (λ x, negb (String.eqb x c')) c (columns df) i Hi)
    as (i' & Hi' & Hcell).
  { by destruct (String.eqb_spec c c'). }
  unfold column, select_columns. simpl. rewrite Hi'. f_equal.
  rewrite <- list_fmap_compose. apply list_fmap_ext. intros _ r _. apply Hcell.
Qed.



End LoaderClaims.

(** The other half of C6 on an example: with the tid column as the label
    column the load succeeds, the table keeps the column [tid] and every tid
    is its own label. *)
Example load_labels_from_tid_column :
  CSVTrajectoryLoader.load Scenario.tid_label_loader Scenario.table Scenario.empty_world
    = (Ok Scenario.d0,
       mkWorld
         [Obj.mk None
            (Obj.Init
               (Pandas.mkDataFrame ["tid"; "poi"]
                  [[SInt 1; SStr "park"]; [SInt 1; SStr "shop"];
                   [SInt 2; SStr "home"]; [SInt 2; SStr "work"]])
               [(SInt 1, SInt 1); (SInt 2, SInt 2)])]
         ∅ []).
Proof. vm_compute. reflexivity. Qed.

(** ** Claims on statistics and export *)

Section StatsAndExportClaims.
Import Pandas Obj.

(** In the array representation a cached summary is handed back as it is:
    nothing is recomputed and nothing changes. *)
Lemma stats_cached (w : world) (self : ref) (a : option (list string))
    (u : updated) (s : summary) :
  heap w !! self = Some (Obj.mk a (Upd u)) →
  _stats u = Some s →
  TrajectoryData.stats self false w = (Ok s, w).
Proof.
  intros Hs Hc. unfold TrajectoryData.stats, mbind, M_bind, deref.
  rewrite Hs. simpl. by rewrite Hc.
Qed.

(** A call of [stats] that returns leaves its result cached: the next call
    returns the same summary from the cache. *)
Lemma stats_twice (w w' : world) (self : ref) (s : summary) :
  TrajectoryData.stats self false w = (Ok s, w') →
  TrajectoryData.stats self false w' = (Ok s, w').
Proof.
  unfold TrajectoryData.stats at 1. unfold mbind, M_bind, deref.
  destruct (heap w !! self) as [[a [|u]]|] eqn:Hs; simpl; [done| |done].
  assert (self < List.length (heap w))%nat as Hlt by by eapply lookup_lt_Some.
  destruct (_stats u) as [c|] eqn:Hc.
  { intros [= <- <-]. by eapply stats_cached. }
  unfold lift. destruct (TrajectoryData.summarise _ u) as [s0|]; simpl; [|done].
  destruct (TrajectoryData.is_None (labels u)); simpl.
  - intros [= <- <-]. eapply stats_cached; simpl.
    + by apply list_lookup_insert_eq.
    + done.
  - destruct (TrajectoryData.label_summary (labels u)) as [l|]; simpl; [|done].
    intros [= <- <-]. eapply stats_cached; simpl.
    + apply list_lookup_insert_eq. by rewrite length_insert.
    + done.
Qed.

(** C7 (the code departs from it): on a constructed dataset [stats] raises
    [AttributeError], with or without printing, because it tests
    [self._stats], which only [_update] binds.  Nothing is computed, cached
    or printed. *)
Theorem C7_stats_raises_after_construction
    (w : world) (self : ref) (s : Obj.t)
    (df : DataFrame) (labels : option Series) (print_stats : bool) :
  heap w !! self = Some s →
  TrajectoryData.__init__ df labels = Ok s →
  TrajectoryData.stats self print_stats w
    = (Raise (AttributeError "TrajectoryData" "_stats"), w).
Proof.
  intros Hs (i & l & _ & _ & _ & ->)%init_Ok_inv.
  unfold TrajectoryData.stats, mbind, M_bind, deref. by rewrite Hs.
Qed.

Lemma C7_scenario :
  TrajectoryData.stats Scenario.d0 false Scenario.two_constructed
    = (Raise (AttributeError "TrajectoryData" "_stats"), Scenario.two_constructed) ∧
  TrajectoryData.stats Scenario.d0 true Scenario.two_constructed
    = (Raise (AttributeError "TrajectoryData" "_stats"), Scenario.two_constructed).
Proof.
  split.
  - apply (C7_stats_raises_after_construction Scenario.two_constructed Scenario.d0
             Scenario.constructed Scenario.table (Some Scenario.labels) false);
      vm_compute; reflexivity.
  - apply (C7_stats_raises_after_construction Scenario.two_constructed Scenario.d0
             Scenario.constructed Scenario.table (Some Scenario.labels) true);
      vm_compute; reflexivity.
Defined.

(** The header of the export: [lat_lon] becomes the two columns [lat] and
    [lon]. *)
Example csv_header_lat_lon :
  TrajectoryData.csv_header ["lat_lon"; "poi"] = "tid,label,lat,lon,poi".
Proof. reflexivity. Qed.

(** Whatever the instance, an export to csv returns nothing: the last
    statement reached is the evaluation of the unbound name [delayed]. *)
Lemma to_file_csv_raises (w : world) (self : ref) (file : string) (n_jobs : nat) :
  ∃ e w', TrajectoryData.to_file self file "csv" n_jobs w = (Raise e, w').
Proof.
  unfold TrajectoryData.to_file. simpl.
  unfold TrajectoryData._to_csv, mbind, M_bind, deref, lift, write_file, raise.
  destruct (heap w !! self) as [o|]; [|eauto].
  destruct (TrajectoryData.get_tids None o); [|eauto].
  destruct (TrajectoryData.get_attributes o); eauto.
Qed.

(** In the array representation the export writes the header line and then
    raises [NameError]. *)
Example to_file_arrays :
  TrajectoryData.to_file Scenario.d0 "out.csv" "csv" 1 Scenario.two_arrays
    = (Raise (NameError "delayed"),
       mkWorld (heap Scenario.two_arrays)
               {[ "out.csv" := "tid,label,poi" +:+ TrajectoryData.newline ]}
               []).
Proof. vm_compute. reflexivity. Qed.

(** C8 (the code departs from it): on a constructed dataset the export
    raises [AttributeError] on [tids] before the file is opened, so no header
    and no row is written; and on no instance at all does an export to csv
    return. *)
Theorem C8_to_file_raises_after_construction
    (w : world) (self : ref) (s : Obj.t)
    (df : DataFrame) (labels : option Series) (file : string) (n_jobs : nat) :
  heap w !! self = Some s →
  TrajectoryData.__init__ df labels = Ok s →
  TrajectoryData.to_file self file "csv" n_jobs w
    = (Raise (AttributeError "TrajectoryData" "tids"), w) ∧
  ∀ (w0 : world) (self0 : ref),
    ∃ e w1, TrajectoryData.to_file self0 file "csv" n_jobs w0 = (Raise e, w1).
Proof.
  intros Hs (i & l & _ & _ & _ & ->)%init_Ok_inv. split.
  - unfold TrajectoryData.to_file. simpl.
    unfold TrajectoryData._to_csv, mbind, M_bind, deref, lift. by rewrite Hs.
  - intros. apply to_file_csv_raises.
Qed.

Lemma C8_scenario :
  TrajectoryData.to_file Scenario.d0 "out.csv" "csv" 1 Scenario.two_constructed
    = (Raise (AttributeError "TrajectoryData" "tids"), Scenario.two_constructed).
Proof.
  apply (C8_to_file_raises_after_construction Scenario.two_constructed Scenario.d0
           Scenario.constructed Scenario.table (Some Scenario.labels) "out.csv" 1);
    vm_compute; reflexivity.
Defined.

End StatsAndExportClaims.

(** The array instances of the scenarios are what [_update] binds on an
    object whose [attributes] was assigned from outside. *)
Example five_by_update :
  (TrajectoryData._update Scenario.d0 ["poi"]
     [[[Some (SStr "home")]]] [SInt 5] (Some [SStr "a"])
     (mkWorld [Obj.mk (Some ["poi"]) (Obj.env Scenario.constructed)] ∅ [])).2
  = mkWorld [Scenario.five] ∅ [].
Proof. vm_compute. reflexivity. Qed.

Example one_by_update :
  (TrajectoryData._update Scenario.d0 ["poi"]
     [[[Some (SStr "park")]; [Some (SStr "shop")]]] [SInt 1] (Some [SStr "b"])
     (mkWorld [Obj.mk (Some ["poi"]) (Obj.env Scenario.other_constructed)] ∅ [])).2
  = mkWorld [Scenario.one] ∅ [].
Proof. vm_compute. reflexivity. Qed.

(** * Further properties of the array representation *)

(** ** Dictionaries *)

Section DictFacts.
Context {V : Type}.

Lemma dict_get_set_eq (k : scalar) (v : V) (d : Dict.t V) :
  Dict.get k (Dict.set k v d) = Some v.
Proof.
  induction d as [|[k' v'] d IH]; simpl.
  - by rewrite decide_True.
  - destruct (decide (k = k')) as [->|Hne]; simpl.
    + by rewrite decide_True.
    + by rewrite decide_False.
Qed.

Lemma dict_get_set_ne (k k' : scalar) (v : V) (d : Dict.t V) :
  k ≠ k' → Dict.get k' (Dict.set k v d) = Dict.get k' d.
Proof.
  intros Hne. induction d as [|[k0 v0] d IH]; simpl.
  - by rewrite decide_False.
  - destruct (decide (k = k0)) as [->|Hne0]; simpl.
    + by rewrite !decide_False.
    + destruct (decide (k' = k0)); [done|apply IH].
Qed.

Lemma dict_of_pairs_snoc (ps : list (scalar * V)) (k : scalar) (v : V) :
  Dict.of_pairs (ps ++ [(k, v)]) = Dict.set k v (Dict.of_pairs ps).
Proof. unfold Dict.of_pairs. by rewrite foldl_app. Qed.

End DictFacts.

Section IndexFacts.
Import Pandas Obj Layout.

Lemma zip_seq_snoc (tids : list scalar) (t : scalar) :
  zip (tids ++ [t]) (seq 0 (List.length (tids ++ [t])))
  = zip tids (seq 0 (List.length tids)) ++ [(t, List.length tids)].
Proof.
  rewrite length_app. simpl. rewrite seq_app. simpl.
  rewrite zip_with_app by by rewrite length_seq. done.
Qed.

(** The index built by [dict(zip(tids, range))] sends a tid to its last
    position. *)
Lemma tidToIdx_last_position (tids : list scalar) (t : scalar) (i : nat) :
  Dict.get t (Dict.of_pairs (zip tids (seq 0 (List.length tids)))) = Some i ↔
  last_position tids t i.
Proof.
  unfold last_position. revert i.
  induction tids as [|t' tids IH] using rev_ind; intros i.
  { simpl. split; [done|]. by intros [? _]. }
  rewrite zip_seq_snoc, dict_of_pairs_snoc.
  destruct (decide (t' = t)) as [->|Hne].
  - rewrite dict_get_set_eq. split.
    + intros [= <-]. split.
      * by rewrite list_lookup_middle.
      * intros j Hj. rewrite lookup_ge_None_2; [done|].
        rewrite length_app. simpl. lia.
    + intros [Hi Hlast]. f_equal.
      assert (i < List.length (tids ++ [t]))%nat as Hlt by by eapply lookup_lt_Some.
      rewrite length_app in Hlt. simpl in Hlt.
      destruct (decide (i = List.length tids)) as [->|]; [done|].
      destruct (Hlast (List.length tids)); [lia|]. by rewrite list_lookup_middle.
  - rewrite dict_get_set_ne by done. rewrite IH. split.
    + intros [Hi Hlast].
      assert (i < List.length tids)%nat as Hlt by by eapply lookup_lt_Some.
      split; [by rewrite lookup_app_l|].
      intros j Hj. destruct (decide (j < List.length tids)%nat).
      * rewrite lookup_app_l by done. by apply Hlast.
      * destruct (decide (j = List.length tids)) as [->|].
        -- rewrite list_lookup_middle by done. congruence.
        -- rewrite lookup_ge_None_2; [done|]. rewrite length_app. simpl. lia.
    + intros [Hi Hlast].
      assert (i < List.length tids)%nat as Hlt.
      { apply lookup_lt_Some in Hi as Hlt. rewrite length_app in Hlt. simpl in Hlt.
        destruct (decide (i = List.length tids)) as [->|]; [|lia].
        rewrite list_lookup_middle in Hi by done. congruence. }
      rewrite lookup_app_l in Hi by done. split; [done|].
      intros j Hj Hjt. apply (Hlast j Hj).
      apply lookup_lt_Some in Hjt as Hjlt. by rewrite lookup_app_l.
Qed.

End IndexFacts.

(** ** The label index *)

Section LabelIndexFacts.
Import Pandas Obj Layout.

Lemma positions_from_snoc (k : nat) (l x : scalar) (ls : list scalar) :
  positions_from k l (ls ++ [x])
  = positions_from k l ls ++ (if decide (x = l) then [(k + List.length ls)%nat] else []).
Proof.
  revert k. induction ls as [|y ls IH]; intros k; simpl.
  - rewrite Nat.add_0_r. by rewrite app_nil_r.
  - rewrite IH, <- app_assoc. do 3 f_equal.
    destruct (decide (x = l)); [|done]. f_equal. lia.
Qed.

Lemma elem_of_positions_from (k : nat) (l : scalar) (ls : list scalar) (i : nat) :
  i ∈ positions_from k l ls ↔ ∃ j, i = (k + j)%nat ∧ ls !! j = Some l.
Proof.
  revert k. induction ls as [|y ls IH]; intros k; simpl.
  - rewrite elem_of_nil. split; [done|]. by intros (j & _ & ?).
  - rewrite elem_of_app, IH. split.
    + intros [Hi|(j & -> & Hj)].
      * destruct (decide (y = l)) as [->|]; [|by apply elem_of_nil in Hi].
        apply list_elem_of_singleton in Hi as ->. exists O. split; [lia|done].
      * exists (S j). split; [lia|done].
    + intros ([|j] & -> & Hj); simpl in Hj.
      * left. injection Hj as ->. rewrite decide_True by done.
        rewrite Nat.add_0_r. apply list_elem_of_singleton. done.
      * right. exists j. split; [lia|done].
Qed.

Lemma positions_from_sorted (k : nat) (l : scalar) (ls : list scalar) :
  StronglySorted lt (positions_from k l ls).
Proof.
  revert k. induction ls as [|y ls IH]; intros k; simpl; [constructor|].
  destruct (decide (y = l)); simpl; [|apply IH].
  constructor; [apply IH|].
  apply Forall_forall. intros i (j & -> & _)%elem_of_positions_from. lia.
Qed.

Lemma positions_from_absent (k : nat) (l : scalar) (ls : list scalar) :
  l ∉ ls → positions_from k l ls = [].
Proof.
  revert k. induction ls as [|y ls IH]; intros k; simpl; [done|].
  rewrite not_elem_of_cons. intros [Hne Hl].
  rewrite decide_False by done. by apply IH.
Qed.

Lemma zip_seq_snoc_r (ls : list scalar) (x : scalar) :
  zip (seq 0 (List.length (ls ++ [x]))) (ls ++ [x])
  = zip (seq 0 (List.length ls)) ls ++ [(List.length ls, x)].
Proof.
  rewrite length_app. simpl. rewrite seq_app. simpl.
  rewrite zip_with_app by by rewrite length_seq. done.
Qed.

(** What [_get_label_to_idx] builds from a list of labels. *)
Lemma label_index_get (ls : list scalar) (l : scalar) :
  ∃ d, TrajectoryData._get_label_to_idx (Some ls) = Some d ∧
       Dict.get l d = if decide (l ∈ ls) then Some (positions l ls) else None.
Proof.
  eexists. split; [done|]. unfold positions.
  induction ls as [|x ls IH] using rev_ind; [done|].
  rewrite zip_seq_snoc_r, foldl_app. simpl.
  match type of IH with
  | Dict.get _ ?d0 = _ => set (d := d0) in *
  end.
  rewrite positions_from_snoc. simpl.
  destruct (decide (x = l)) as [->|Hne].
  - rewrite decide_True by (apply elem_of_app; right; by left).
    rewrite IH. destruct (decide (l ∈ ls)).
    + by rewrite dict_get_set_eq.
    + rewrite dict_get_set_eq. by rewrite positions_from_absent.
  - assert (Dict.get l (match Dict.get x d with
                        | Some idxs => Dict.set x (idxs ++ [List.length ls]) d
                        | None => Dict.set x [List.length ls] d
                        end) = Dict.get l d) as ->.
    { destruct (Dict.get x d); by rewrite dict_get_set_ne. }
    rewrite IH, app_nil_r.
    destruct (decide (l ∈ ls)) as [Hin|Hnin].
    + rewrite decide_True; [done|]. apply elem_of_app. by left.
    + rewrite decide_False; [done|].
      rewrite elem_of_app, list_elem_of_singleton. intros [?|?]; [done|]. by subst.
Qed.

(** X1: the label index built by [_get_label_to_idx] knows exactly the
    labels of the list, and maps each to all of its positions, in ascending
    order. *)
Theorem X1_label_index_positions (ls : list scalar) (l : scalar) :
  ∃ d, TrajectoryData._get_label_to_idx (Some ls) = Some d ∧
       match Dict.get l d with
       | Some idxs =>
           l ∈ ls ∧ StronglySorted lt idxs ∧ ∀ i, i ∈ idxs ↔ ls !! i = Some l
       | None => l ∉ ls
       end.
Proof.
  destruct (label_index_get ls l) as (d & Hd & Hget). exists d. split; [done|].
  rewrite Hget. destruct (decide (l ∈ ls)); [|done].
  split_and!; [done|apply positions_from_sorted|].
  intros i. unfold positions. rewrite elem_of_positions_from. split.
  - by intros (j & -> & ?).
  - intros ?. by exists i.
Qed.

End LabelIndexFacts.

(** ** Queries on a rebound instance *)

Section QueryFacts.
Import Pandas Obj Layout.

(** [_update] rebinds the receiver and nothing else: the attribute
    [attributes] keeps its state, the other instances, the files and the
    output are untouched. *)
Lemma update_effect (w : world) (self : ref) (o : Obj.t) (attrs : list string)
    (data : list trajectory) (tids : list scalar) (labels : option (list scalar)) :
  heap w !! self = Some o →
  TrajectoryData._update self attrs data tids labels w
  = (Ok (),
     mkWorld (<[self := Obj.mk (attributes o)
                          (Upd (TrajectoryData.bindings data tids labels))]> (heap w))
             (files w) (stdout w)).
Proof.
  intros Hs. unfold TrajectoryData._update, mbind, M_bind, deref, store.
  by rewrite Hs.
Qed.

Lemma last_position_exists (tids : list scalar) (t : scalar) :
  t ∈ tids → ∃ i, last_position tids t i.
Proof.
  unfold last_position.
  induction tids as [|t' tids IH] using rev_ind; [by intros ?%elem_of_nil|].
  intros Hin. destruct (decide (t' = t)) as [->|Hne].
  - exists (List.length tids). split; [by rewrite list_lookup_middle|].
    intros j Hj. rewrite lookup_ge_None_2; [done|]. rewrite length_app. simpl. lia.
  - apply elem_of_app in Hin as [Hin|Hin%list_elem_of_singleton]; [|congruence].
    destruct (IH Hin) as (i & Hi & Hlast).
    assert (i < List.length tids)%nat as Hlt by by eapply lookup_lt_Some.
    exists i. split; [by rewrite lookup_app_l|].
    intros j Hj. destruct (decide (j < List.length tids)%nat).
    + rewrite lookup_app_l by done. by apply Hlast.
    + destruct (decide (j = List.length tids)) as [->|].
      * rewrite list_lookup_middle by done. congruence.
      * rewrite lookup_ge_None_2; [done|]. rewrite length_app. simpl. lia.
Qed.

Lemma last_position_NoDup (tids : list scalar) (t : scalar) (i : nat) :
  NoDup tids → tids !! i = Some t → last_position tids t i.
Proof.
  intros Hnd Hi. split; [done|]. intros j Hj Hjt.
  assert (i = j) by by eapply NoDup_lookup. lia.
Qed.

Lemma tidToIdx_absent (tids : list scalar) (t : scalar) :
  t ∉ tids →
  Dict.get t (Dict.of_pairs (zip tids (seq 0 (List.length tids)))) = None.
Proof.
  intros Hnin.
  destruct (Dict.get t _) as [i|] eqn:E; [|done].
  apply tidToIdx_last_position in E as [Hi _].
  destruct Hnin. by eapply list_elem_of_lookup_2.
Qed.

(** X2: on an instance rebound by [_update] with labels and trajectory
    values that numpy stores as they are (each of one type: integers of
    [int64], or strings that do not end in NUL) and trajectories that form
    a rectangular block, [get_trajectory(t)] and [get_label(t)] read the
    data and label arrays at the last position that [t] has in the tid
    list, and raise [IndexError] when the array is shorter than that. *)
Theorem X2_lookup_by_tid_after_update
    (a : option (list string)) (data : list trajectory) (tids ls : list scalar)
    (t : scalar) (i : nat) :
  last_position tids t i →
  np_exact ls = true →
  rectangular data = true →
  np_exact_data data = true →
  let o := Obj.mk a (Upd (TrajectoryData.bindings data tids (Some ls))) in
  TrajectoryData.get_trajectory t o = TrajectoryData.item i data ∧
  TrajectoryData.get_label t o = TrajectoryData.item i ls.
Proof.
  intros Hlast%tidToIdx_last_position _ _ _. simpl.
  unfold TrajectoryData.get_trajectory, TrajectoryData.get_label, Dict.subscript.
  simpl. by rewrite Hlast.
Qed.

Lemma X2_scenario :
  TrajectoryData.get_trajectory (SInt 1)
    (Obj.mk None (Upd (TrajectoryData.bindings
                         [[[Some (SStr "home")]]; [[Some (SStr "park")]]]
                         [SInt 5; SInt 1] (Some [SStr "a"; SStr "b"]))))
    = Ok [[Some (SStr "park")]] ∧
  TrajectoryData.get_label (SInt 1)
    (Obj.mk None (Upd (TrajectoryData.bindings
                         [[[Some (SStr "home")]]; [[Some (SStr "park")]]]
                         [SInt 5; SInt 1] (Some [SStr "a"; SStr "b"]))))
    = Ok (SStr "b").
Proof.
  apply (X2_lookup_by_tid_after_update None
           [[[Some (SStr "home")]]; [[Some (SStr "park")]]]
           [SInt 5; SInt 1] [SStr "a"; SStr "b"] (SInt 1) 1%nat).
  - split; [reflexivity|]. intros [|[|j]] Hj; try lia; simpl; discriminate.
  - reflexivity.
  - reflexivity.
  - reflexivity.
Defined.

(** X3: a tid that the tid list does not hold is a missing key: both
    look-ups raise [KeyError] with that tid, whatever the arrays. *)
Theorem X3_unknown_tid_raises_KeyError
    (a : option (list string)) (data : list trajectory) (tids : list scalar)
    (labels : option (list scalar)) (t : scalar) :
  t ∉ tids →
  let o := Obj.mk a (Upd (TrajectoryData.bindings data tids labels)) in
  TrajectoryData.get_trajectory t o = Raise (KeyError t) ∧
  TrajectoryData.get_label t o = Raise (KeyError t).
Proof.
  intros Hnin%tidToIdx_absent. simpl.
  unfold TrajectoryData.get_trajectory, TrajectoryData.get_label, Dict.subscript.
  simpl. by rewrite Hnin.
Qed.

Lemma X3_scenario :
  TrajectoryData.get_trajectory (SInt 7)
    (Obj.mk None (Upd (TrajectoryData.bindings
                         [[[Some (SStr "home")]]] [SInt 5] (Some [SStr "a"]))))
    = Raise (KeyError (SInt 7)) ∧
  TrajectoryData.get_label (SInt 7)
    (Obj.mk None (Upd (TrajectoryData.bindings
                         [[[Some (SStr "home")]]] [SInt 5] (Some [SStr "a"]))))
    = Raise (KeyError (SInt 7)).
Proof.
  apply (X3_unknown_tid_raises_KeyError None [[[Some (SStr "home")]]] [SInt 5]
           (Some [SStr "a"]) (SInt 7)).
  apply (bool_decide_unpack _). vm_compute. exact I.
Defined.

End QueryFacts.

Section FilterFacts.
Import Pandas Obj Layout.

(** Reading an array at the positions of a label picks the entries that
    are paired with that label. *)
Lemma take_positions {A} (l : scalar) (ls : list scalar) (pre xs : list A) :
  List.length xs = List.length ls →
  TrajectoryData.take (positions_from (List.length pre) l ls) (pre ++ xs)
  = Ok ((filter (λ p, p.2 = l) (zip xs ls)).*1).
Proof.
  revert pre xs. induction ls as [|y ls IH]; intros pre xs Hlen.
  { destruct xs; [done|]. simpl in Hlen. lia. }
  destruct xs as [|x xs]; simpl in Hlen; [lia|].
  assert (TrajectoryData.take (positions_from (S (List.length pre)) l ls) (pre ++ x :: xs)
          = Ok ((filter (λ p, p.2 = l) (zip xs ls)).*1)) as Hrest.
  { specialize (IH (pre ++ [x]) xs). rewrite length_app in IH. simpl in IH.
    rewrite Nat.add_1_r, <- app_assoc in IH. apply IH. lia. }
  simpl. rewrite filter_cons. simpl.
  destruct (decide (y = l)) as [->|Hne]; simpl.
  - unfold TrajectoryData.item. rewrite list_lookup_middle by done. simpl.
    rewrite Hrest. done.
  - exact Hrest.
Qed.

(** X4: on an instance rebound by [_update] with as many labels and
    trajectories as tids, tids and trajectory values that numpy stores as
    they are (each of one type: integers of [int64], or strings that do not
    end in NUL) and trajectories that form a rectangular block,
    [get_tids(label)] for a truthy label returns the tids that carry the
    label, in their order, and [get_trajectories(label)] the trajectories at
    the same positions; a label that no trajectory carries raises
    [KeyError]; a falsy label ([None], [0], the empty string) returns
    everything, also when some trajectory carries it. *)
Theorem X4_filter_by_label_after_update
    (a : option (list string)) (data : list trajectory) (tids ls : list scalar)
    (label : option scalar) :
  List.length tids = List.length ls →
  List.length data = List.length ls →
  np_exact tids = true →
  rectangular data = true →
  np_exact_data data = true →
  let o := Obj.mk a (Upd (TrajectoryData.bindings data tids (Some ls))) in
  match label with
  | Some l =>
      if truthy label then
        if decide (l ∈ ls) then
          TrajectoryData.get_tids label o
            = Ok ((filter (λ p, p.2 = l) (zip tids ls)).*1) ∧
          TrajectoryData.get_trajectories label o
            = Ok (TrajectoryData.Trajectories
                    ((filter (λ p, p.2 = l) (zip data ls)).*1))
        else
          TrajectoryData.get_tids label o = Raise (KeyError l) ∧
          TrajectoryData.get_trajectories label o = Raise (KeyError l)
      else
        TrajectoryData.get_tids label o = Ok tids ∧
        TrajectoryData.get_trajectories label o = Ok (TrajectoryData.Trajectories data)
  | None =>
      TrajectoryData.get_tids label o = Ok tids ∧
      TrajectoryData.get_trajectories label o = Ok (TrajectoryData.Trajectories data)
  end.
Proof.
  intros Ht Hd _ _ _. simpl.
  unfold TrajectoryData.get_tids, TrajectoryData.get_trajectories. simpl.
  destruct label as [l|]; [|done].
  destruct (truthy (Some l)) eqn:Htruthy; simpl; [|done].
  unfold TrajectoryData.labelToIdx_item. simpl.
  destruct (label_index_get ls l) as (d & Hd' & Hget).
  simpl in Hd'. injection Hd' as <-.
  unfold Dict.subscript. rewrite Hget.
  destruct (decide (l ∈ ls)); simpl; [|done].
  unfold positions.
  assert (H1 := take_positions l ls [] tids Ht).
  assert (H2 := take_positions l ls [] data Hd).
  simpl in H1, H2. by rewrite H1, H2.
Qed.

Lemma X4_scenario :
  TrajectoryData.get_tids (Some (SStr "a"))
    (Obj.mk None (Upd (TrajectoryData.bindings
                         [[[Some (SStr "home")]]; [[Some (SStr "park")]]; [[Some (SStr "gym")]]]
                         [SInt 5; SInt 1; SInt 3]
                         (Some [SStr "a"; SStr "b"; SStr "a"]))))
    = Ok [SInt 5; SInt 3] ∧
  TrajectoryData.get_trajectories (Some (SStr "a"))
    (Obj.mk None (Upd (TrajectoryData.bindings
                         [[[Some (SStr "home")]]; [[Some (SStr "park")]]; [[Some (SStr "gym")]]]
                         [SInt 5; SInt 1; SInt 3]
                         (Some [SStr "a"; SStr "b"; SStr "a"]))))
    = Ok (TrajectoryData.Trajectories [[[Some (SStr "home")]]; [[Some (SStr "gym")]]]).
Proof.
  exact (X4_filter_by_label_after_update None
           [[[Some (SStr "home")]]; [[Some (SStr "park")]]; [[Some (SStr "gym")]]]
           [SInt 5; SInt 1; SInt 3] [SStr "a"; SStr "b"; SStr "a"]
           (Some (SStr "a")) eq_refl eq_refl eq_refl eq_refl eq_refl).
Defined.

(** The label [0] cannot be filtered on: every tid comes back. *)
Example get_tids_label_zero :
  TrajectoryData.get_tids (Some (SInt 0))
    (Obj.mk None (Upd (TrajectoryData.bindings
                         [[[Some (SStr "home")]]; [[Some (SStr "park")]]]
                         [SInt 5; SInt 1] (Some [SInt 0; SInt 1]))))
  = Ok [SInt 5; SInt 1].
Proof. reflexivity. Qed.

End FilterFacts.

(** ** Merge in the array representation *)

Section MergeArrayFacts.
Import Pandas Obj Layout.

Lemma serves_get (o : Obj.t) (v : updated) (t : scalar) :
  env o = Upd v →
  serves v t →
  ∃ traj lab, TrajectoryData.get_trajectory t o = Ok traj ∧
              TrajectoryData.get_label t o = Ok lab.
Proof.
  intros Hv (i & traj & lv & lab & Hi & Hd & Hl & Hlab). exists traj, lab.
  unfold TrajectoryData.get_trajectory, TrajectoryData.get_label.
  rewrite Hv. unfold Dict.subscript. rewrite Hi. simpl.
  unfold TrajectoryData.item. by rewrite Hd, Hl, Hlab.
Qed.

(** With [ignore_duplicates] the loop appends exactly the new tids, when
    the other instance can serve each of them. *)
Lemma merge_loop_new_tids (o : Obj.t) (v : updated) (todo : list scalar)
    (n : TrajectoryData.working) (ls : list scalar) :
  env o = Upd v →
  TrajectoryData.n_labels n = Some ls →
  (∀ t, t ∈ todo → t ∉ TrajectoryData.n_tids n → serves v t) →
  ∃ ds ls',
    TrajectoryData.merge_loop o true todo n
    = Ok (TrajectoryData.mkWorking
            (TrajectoryData.n_tids n ++ new_tids (TrajectoryData.n_tids n) todo)
            (TrajectoryData.n_data n ++ ds)
            (Some (ls ++ ls'))) ∧
    Forall2 (λ t d, TrajectoryData.get_trajectory t o = Ok d)
            (new_tids (TrajectoryData.n_tids n) todo) ds ∧
    Forall2 (λ t lab, TrajectoryData.get_label t o = Ok lab)
            (new_tids (TrajectoryData.n_tids n) todo) ls'.
Proof.
  intros Hv. revert n ls. induction todo as [|t todo IH]; intros n ls Hl Hserve.
  { exists [], []. destruct n as [nt nd nl]. simpl in *. subst nl.
    by rewrite !app_nil_r. }
  cbn [TrajectoryData.merge_loop]. case_bool_decide as Hin.
  { rewrite new_tids_cons_old by done. apply IH; [done|].
    intros t' Ht'. apply Hserve. by right. }
  rewrite new_tids_cons_new by done.
  destruct (serves_get o v t Hv) as (traj & lab & Htraj & Hlab).
  { apply Hserve; [by left|done]. }
  rewrite Htraj, Hl, Hlab. simpl.
  destruct (IH (TrajectoryData.mkWorking (TrajectoryData.n_tids n ++ [t])
                  (TrajectoryData.n_data n ++ [traj]) (Some (ls ++ [lab])))
               (ls ++ [lab]) eq_refl) as (ds & ls' & Hloop & Hds & Hls).
  { simpl. intros t' Ht' Hn. apply Hserve; [by right|].
    rewrite elem_of_app in Hn. tauto. }
  simpl in *. exists (traj :: ds), (lab :: ls').
  rewrite Hloop, <- !app_assoc. simpl. split_and!; [done| |]; by constructor.
Qed.

(** Without [ignore_duplicates] the loop stops at the first tid it has
    already, and names it. *)
Lemma merge_loop_duplicate (o : Obj.t) (v : updated) (todo : list scalar)
    (n : TrajectoryData.working) :
  env o = Upd v →
  (∀ t, t ∈ todo → t ∉ TrajectoryData.n_tids n → serves v t) →
  (∃ t, t ∈ todo ∧ t ∈ TrajectoryData.n_tids n) →
  ∃ t0,
    t0 ∈ todo ∧
    (NoDup todo → t0 ∈ TrajectoryData.n_tids n) ∧
    TrajectoryData.merge_loop o false todo n
    = Raise (PyException [SStr "tid"; t0; SStr "already exists in 'self'!"]).
Proof.
  intros Hv. revert n. induction todo as [|t todo IH]; intros n Hserve (s & Hs & Hshared).
  { by apply elem_of_nil in Hs. }
  cbn [TrajectoryData.merge_loop]. case_bool_decide as Hin.
  { exists t. split_and!; [by left|done|done]. }
  destruct (serves_get o v t Hv) as (traj & lab & Htraj & Hlab).
  { apply Hserve; [by left|done]. }
  rewrite Htraj. simpl.
  assert (s ∈ todo) as Hs'.
  { apply elem_of_cons in Hs as [->|]; [done|done]. }
  set (labs := match TrajectoryData.n_labels n with
               | Some ls => lab ← TrajectoryData.get_label t o; Ok (Some (ls ++ [lab]))
               | None => Ok None
               end).
  assert (∃ l', labs = Ok l') as [l' ->].
  { unfold labs. destruct (TrajectoryData.n_labels n); [|eauto].
    rewrite Hlab. simpl. eauto. }
  simpl.
  destruct (IH (TrajectoryData.mkWorking (TrajectoryData.n_tids n ++ [t])
                  (TrajectoryData.n_data n ++ [traj]) l')) as (t0 & Ht0 & Hnd & Hloop).
  { simpl. intros t' Ht' Hn. apply Hserve; [by right|].
    rewrite elem_of_app in Hn. tauto. }
  { exists s. split; [done|]. simpl. apply elem_of_app. by left. }
  exists t0. split_and!; [by right| |done].
  intros [Htn Hnd']%NoDup_cons. specialize (Hnd Hnd'). simpl in Hnd.
  apply elem_of_app in Hnd as [?|Heq%list_elem_of_singleton]; [done|].
  by subst.
Qed.


End MergeArrayFacts.

Section MergeArrayTheorems.
Import Pandas Obj Layout.

(** X5: two instances in the array representation have equal attribute
    sets; the receiver has a label array; the other instance holds a
    trajectory and a label for each tid the receiver lacks; the tids, the
    labels and the trajectory values of the two are each of one type that
    numpy stores as it is, and their trajectories form a rectangular block.
    Then an in-place merge that skips duplicates returns the receiver and
    appends to its tids exactly the tids of the other instance that it
    lacked, each once and in the other's order, together with the
    trajectory and the label that the other instance holds for each;
    [length()] grows by their number. *)
Theorem X5_merge_appends_new_tids
    (w : world) (self other : ref) (sa oa : list string) (u v : updated)
    (ls : list scalar) :
  heap w !! self = Some (Obj.mk (Some sa) (Upd u)) →
  heap w !! other = Some (Obj.mk (Some oa) (Upd v)) →
  TrajectoryData.set_ne sa oa = false →
  labels u = LArray ls →
  (∀ t, t ∈ tids v → t ∉ tids u → serves v t) →
  rectangular (data u ++ data v) = true →
  np_exact (tids u ++ tids v) = true →
  np_exact (ls ++ label_values (labels v)) = true →
  np_exact_data (data u ++ data v) = true →
  ∃ w' u' ds ls',
    TrajectoryData.merge self other true true w = (Ok self, w') ∧
    heap w' !! self = Some (Obj.mk (Some sa) (Upd u')) ∧
    tids u' = tids u ++ new_tids (tids u) (tids v) ∧
    data u' = data u ++ ds ∧
    labels u' = LArray (ls ++ ls') ∧
    Forall2 (λ t d, TrajectoryData.get_trajectory t (Obj.mk (Some oa) (Upd v)) = Ok d)
            (new_tids (tids u) (tids v)) ds ∧
    Forall2 (λ t lab, TrajectoryData.get_label t (Obj.mk (Some oa) (Upd v)) = Ok lab)
            (new_tids (tids u) (tids v)) ls' ∧
    TrajectoryData.length (Obj.mk (Some sa) (Upd u'))
      = Ok (List.length (tids u) + List.length (new_tids (tids u) (tids v)))%nat.
Proof.
  intros Hs Ho Hne Hl Hserve _ _ _ _.
  rewrite (merge_unfold w self other _ _ true true Hs Ho).
  unfold TrajectoryData.merge_candidate. simpl. rewrite Hne, Hl. simpl.
  destruct (merge_loop_new_tids (Obj.mk (Some oa) (Upd v)) v (tids v)
              (TrajectoryData.mkWorking (tids u) (data u) (Some ls)) ls
              eq_refl eq_refl Hserve) as (ds & ls' & -> & Hds & Hls).
  simpl. eexists _, (TrajectoryData.bindings _ _ _), ds, ls'.
  split_and!; [reflexivity| | | | | | |].
  - simpl. apply list_lookup_insert_eq. by eapply lookup_lt_Some.
  - done.
  - done.
  - done.
  - done.
  - done.
  - unfold TrajectoryData.length. simpl. by rewrite length_app.
Qed.

Lemma X5_scenario :
  ∃ w' u',
    TrajectoryData.merge Scenario.d0 Scenario.d1 true true Scenario.two_aligned
      = (Ok Scenario.d0, w') ∧
    heap w' !! Scenario.d0 = Some (Obj.mk (Some ["poi"]) (Upd u')) ∧
    tids u' = [SInt 5] ++ new_tids [SInt 5] [SInt 1].
Proof.
  destruct (X5_merge_appends_new_tids Scenario.two_aligned Scenario.d0 Scenario.d1
              ["poi"] ["poi"]
              {| Obj.tids := [SInt 5];
                 Obj.labels := LArray [SStr "a"];
                 Obj.data := [[[Some (SStr "home")]]];
                 Obj.tidToIdx := [(SInt 5, O)];
                 Obj.labelToIdx := Some [(SStr "a", [O])];
                 Obj._stats := None |}
              {| Obj.tids := [SInt 1];
                 Obj.labels := LArray [SStr "b"];
                 Obj.data := [[[Some (SStr "park")]]];
                 Obj.tidToIdx := [(SInt 1, O)];
                 Obj.labelToIdx := Some [(SStr "b", [O])];
                 Obj._stats := None |}
              [SStr "a"] eq_refl eq_refl eq_refl eq_refl)
    as (w' & u' & ds & ls' & Hm & Hh & Ht & _).
  - intros t Ht _. simpl in Ht. apply list_elem_of_singleton in Ht as ->.
    exists O, [[Some (SStr "park")]], [SStr "b"], (SStr "b").
    repeat split; reflexivity.
  - reflexivity.
  - reflexivity.
  - reflexivity.
  - reflexivity.
  - exists w', u'. repeat split; assumption.
Defined.

(** X6: two instances in the array representation have equal attribute
    sets; [labels] of the receiver is not [None]; the other instance has
    no repeated tid, holds a trajectory and a label for each of its tids
    that the receiver lacks, and shares a tid with the receiver.  Then a
    merge that does not ignore duplicates raises the exception that names
    a shared tid, with and without [inplace], and leaves the world as it
    was. *)
Theorem X6_merge_duplicate_names_tid
    (w : world) (self other : ref) (sa oa : list string) (u v : updated)
    (inplace : bool) :
  heap w !! self = Some (Obj.mk (Some sa) (Upd u)) →
  heap w !! other = Some (Obj.mk (Some oa) (Upd v)) →
  TrajectoryData.set_ne sa oa = false →
  labels u ≠ LNone →
  (∀ t, t ∈ tids v → t ∉ tids u → serves v t) →
  NoDup (tids v) →
  (∃ t, t ∈ tids v ∧ t ∈ tids u) →
  ∃ t0,
    t0 ∈ tids u ∧ t0 ∈ tids v ∧
    TrajectoryData.merge self other false inplace w
    = (Raise (PyException [SStr "tid"; t0; SStr "already exists in 'self'!"]), w).
Proof.
  intros Hs Ho Hne Hl Hserve Hnd Hshared.
  rewrite (merge_unfold w self other _ _ false inplace Hs Ho).
  unfold TrajectoryData.merge_candidate. simpl. rewrite Hne. simpl.
  destruct (TrajectoryData.labels_tolist (labels u)) as [nl|] eqn:Htl.
  2: { by destruct (labels u). }
  simpl.
  destruct (merge_loop_duplicate (Obj.mk (Some oa) (Upd v)) v (tids v)
              (TrajectoryData.mkWorking (tids u) (data u) nl)
              eq_refl Hserve Hshared) as (t0 & Ht0 & Hin & ->).
  exists t0. split_and!; [by apply Hin|done|done].
Qed.

Lemma X6_scenario :
  ∃ t0,
    t0 ∈ [SInt 5] ∧ t0 ∈ [SInt 5] ∧
    TrajectoryData.merge Scenario.d0 Scenario.d0 false true Scenario.two_arrays
    = (Raise (PyException [SStr "tid"; t0; SStr "already exists in 'self'!"]),
       Scenario.two_arrays).
Proof.
  apply (X6_merge_duplicate_names_tid Scenario.two_arrays Scenario.d0 Scenario.d0
           ["poi"] ["poi"]
           {| Obj.tids := [SInt 5];
              Obj.labels := LArray [SStr "a"];
              Obj.data := [[[Some (SStr "home")]]];
              Obj.tidToIdx := [(SInt 5, O)];
              Obj.labelToIdx := Some [(SStr "a", [O])];
              Obj._stats := None |}
           {| Obj.tids := [SInt 5];
              Obj.labels := LArray [SStr "a"];
              Obj.data := [[[Some (SStr "home")]]];
              Obj.tidToIdx := [(SInt 5, O)];
              Obj.labelToIdx := Some [(SStr "a", [O])];
              Obj._stats := None |}
           true eq_refl eq_refl eq_refl).
  - discriminate.
  - intros t Ht Hn. destruct (Hn Ht).
  - apply (bool_decide_unpack _). vm_compute. exact I.
  - exists (SInt 5). split; apply (bool_decide_unpack _); vm_compute; exact I.
Defined.



End MergeArrayTheorems.

Section MergeErrorFacts.
Import Pandas Obj Layout.

Lemma set_ne_false (a b : list string) :
  TrajectoryData.set_ne a b = false ↔ ∀ x, x ∈ a ↔ x ∈ b.
Proof.
  unfold TrajectoryData.set_ne.
  rewrite negb_false_iff, andb_true_iff, !forallb_forall.
  split.
  - intros [Hab Hba] x. split; intros Hx.
    + apply list_elem_of_In, Hab, bool_decide_eq_true in Hx. done.
    + apply list_elem_of_In, Hba, bool_decide_eq_true in Hx. done.
  - intros H. split; intros x Hx%list_elem_of_In; apply bool_decide_eq_true; by apply H.
Qed.

(** Whatever the loop of [merge] raises, it is a look-up error or the
    exception with three arguments. *)
Lemma merge_loop_raise (o : Obj.t) (ignore_duplicates : bool) (todo : list scalar)
    (n : TrajectoryData.working) (e : exn) :
  TrajectoryData.merge_loop o ignore_duplicates todo n = Raise e →
  match e with
  | PyException args => List.length args = 3%nat
  | _ => True
  end.
Proof.
  revert n. induction todo as [|t todo IH]; intros n; [done|].
  cbn [TrajectoryData.merge_loop]. case_bool_decide.
  { destruct ignore_duplicates; [apply IH|]. by intros [= <-]. }
  unfold TrajectoryData.get_trajectory, TrajectoryData.get_label,
    Dict.subscript, TrajectoryData.item, unbound.
  destruct (env o) as [|v]; simpl; [by intros [= <-]|].
  destruct (Dict.get t (tidToIdx v)) as [i|]; simpl; [|by intros [= <-]].
  destruct (data v !! i); simpl; [|by intros [= <-]].
  destruct (TrajectoryData.n_labels n); simpl; [|apply IH].
  destruct (labels v) as [|lv|]; simpl; try by intros [= <-].
  destruct (lv !! i); simpl; [apply IH|by intros [= <-]].
Qed.

(** X8: when both instances have [attributes], [merge] raises the
    attribute mismatch exception exactly when the two attribute lists differ
    as sets; order and repetition of the names do not count.  The world is
    left as it was. *)
Theorem X8_merge_attribute_sets
    (w : world) (self other : ref) (s o : Obj.t) (sa oa : list string)
    (ignore_duplicates inplace : bool) :
  heap w !! self = Some s →
  heap w !! other = Some o →
  attributes s = Some sa →
  attributes o = Some oa →
  TrajectoryData.merge self other ignore_duplicates inplace w
    = (Raise (PyException
                [SStr "Cannot merge datasets with different sets of attributes!"]), w)
  ↔ ¬ ∀ x, x ∈ sa ↔ x ∈ oa.
Proof.
  intros Hs Ho Hsa Hoa.
  rewrite (merge_unfold w self other s o ignore_duplicates inplace Hs Ho).
  rewrite <- set_ne_false.
  unfold TrajectoryData.merge_candidate, TrajectoryData.get_attributes.
  rewrite Hsa, Hoa. simpl.
  destruct (TrajectoryData.set_ne sa oa); simpl; [split; [done|by intros _]|].
  split; [|done]. intros H. exfalso.
  destruct (env s) as [|u]; simpl in H; [done|].
  destruct (TrajectoryData.labels_tolist (labels u)) as [nl|] eqn:Htl; simpl in H.
  2: { destruct (labels u); simpl in Htl; congruence. }
  destruct (env o) as [|v]; simpl in H; [done|].
  destruct (TrajectoryData.merge_loop o ignore_duplicates (tids v) _) as [n'|e] eqn:Hloop;
    simpl in H.
  - by destruct inplace.
  - apply merge_loop_raise in Hloop. injection H as ->. simpl in Hloop. lia.
Qed.

Lemma X8_scenario :
  TrajectoryData.merge Scenario.d0 Scenario.d1 true true
    (mkWorld [Scenario.five; Obj.mk (Some ["poi"; "day"]) (Obj.env Scenario.one)] ∅ [])
  = (Raise (PyException
              [SStr "Cannot merge datasets with different sets of attributes!"]),
     mkWorld [Scenario.five; Obj.mk (Some ["poi"; "day"]) (Obj.env Scenario.one)] ∅ []).
Proof.
  apply (X8_merge_attribute_sets
           (mkWorld [Scenario.five; Obj.mk (Some ["poi"; "day"]) (Obj.env Scenario.one)] ∅ [])
           Scenario.d0 Scenario.d1 Scenario.five
           (Obj.mk (Some ["poi"; "day"]) (Obj.env Scenario.one))
           ["poi"] ["poi"; "day"] true true eq_refl eq_refl eq_refl eq_refl).
  intros H. specialize (H "day"). destruct H as [_ H].
  assert ("day" ∈ ["poi"]) as Hin.
  { apply H. apply (bool_decide_unpack _). vm_compute. exact I. }
  apply (bool_decide_pack _) in Hin. vm_compute in Hin. exact Hin.
Defined.

(** X9: when the trajectories of the two instances form a rectangular
    block, so that [np.array] accepts whatever list of them the merge
    builds, [merge] changes at most the receiver.  The files, the output
    and every other instance are as before; a merge that raises changes
    nothing at all; a merge that returns hands back the receiver, whose
    [attributes] is kept and whose cached statistics are cleared. *)
Theorem X9_merge_changes_only_the_receiver
    (w w' : world) (self other : ref) (ignore_duplicates inplace : bool)
    (r : result ref) :
  (∀ a b u v,
     heap w !! self = Some (Obj.mk a (Upd u)) →
     heap w !! other = Some (Obj.mk b (Upd v)) →
     rectangular (data u ++ data v) = true) →
  TrajectoryData.merge self other ignore_duplicates inplace w = (r, w') →
  files w' = files w ∧
  stdout w' = stdout w ∧
  List.length (heap w') = List.length (heap w) ∧
  (∀ x : ref, x ≠ self → heap w' !! x = heap w !! x) ∧
  match r with
  | Raise _ => w' = w
  | Ok x =>
      x = self ∧
      ∃ a u u',
        heap w !! self = Some (Obj.mk a (Upd u)) ∧
        heap w' !! self = Some (Obj.mk a (Upd u')) ∧
        _stats u' = None
  end.
Proof.
  intros _ Hm. destruct r as [x|e].
  - apply merge_Ok_inv in Hm
      as (-> & a & u & v & o & ts & ds & labs & Hs & Ho & Hv & -> & _).
    simpl. split_and!; try done.
    + by rewrite length_insert.
    + intros x Hx. by rewrite list_lookup_insert_ne.
    + eexists a, u, (TrajectoryData.bindings _ _ _). split_and!; [done| |done].
      apply list_lookup_insert_eq. by eapply lookup_lt_Some.
  - apply merge_raise_world in Hm as ->. by split_and!.
Qed.

Lemma X9_scenario :
  ∃ w',
    TrajectoryData.merge Scenario.d0 Scenario.d1 true true Scenario.two_aligned
      = (Ok Scenario.d0, w') ∧
    heap w' !! Scenario.d1 = Some Scenario.one_short ∧
    files w' = ∅ ∧ stdout w' = [].
Proof.
  pose (w' := (TrajectoryData.merge Scenario.d0 Scenario.d1 true true
                 Scenario.two_aligned).2).
  destruct (X9_merge_changes_only_the_receiver Scenario.two_aligned w'
              Scenario.d0 Scenario.d1 true true (Ok Scenario.d0))
    as (Hf & Hout & _ & Hother & _).
  { intros a b u v [= <- <-] [= <- <-]. reflexivity. }
  { vm_compute. reflexivity. }
  exists w'. split; [vm_compute; reflexivity|].
  split; [|split; [exact Hf|exact Hout]].
  rewrite (Hother Scenario.d1); [reflexivity|discriminate].
Defined.

End MergeErrorFacts.

(** ** Statistics in the array representation *)

Section StatsFacts.
Import Pandas Obj Layout.

(** Printing the report touches the output only. *)
Lemma print_stats_frame (w w' : world) (self : ref) (r : result unit) :
  TrajectoryData._print_stats self w = (r, w') →
  heap w' = heap w ∧ files w' = files w.
Proof.
  unfold TrajectoryData._print_stats, mbind, M_bind, deref, lift, print, raise.
  destruct (heap w !! self) as [[a [|u]]|]; simpl; try by intros [= _ <-].
  destruct (_stats u) as [s|]; simpl; [|by intros [= _ <-]].
  destruct (TrajectoryData.is_None (labels u)); simpl; [by intros [= _ <-]|].
  destruct (label_block s); simpl; by intros [= _ <-].
Qed.

Lemma then_print (p : bool) (self : ref) (s : summary) (w w' : world)
    (r : result summary) :
  ((if p then TrajectoryData._print_stats self else mret ());; mret s) w = (r, w') →
  heap w' = heap w ∧ files w' = files w ∧
  (p = false → w' = w) ∧
  (∀ s', r = Ok s' → s' = s) ∧
  (p = false → r = Ok s).
Proof.
  unfold mbind, M_bind. destruct p.
  - destruct (TrajectoryData._print_stats self w) as [[[]|e] w1] eqn:Hp.
    + apply print_stats_frame in Hp as [? ?]. intros [= <- <-].
      split_and!; try done. by intros s' [= <-].
    + apply print_stats_frame in Hp as [? ?]. intros [= <- <-]. by split_and!.
  - intros [= <- <-]. split_and!; try done. by intros s' [= <-].
Qed.

Lemma M_bind_unfold {A B} (m : M A) (f : A → M B) (w : world) :
  (m ≫= f) w = match m w with
               | (Ok a, w1) => f a w1
               | (Raise e, w1) => (Raise e, w1)
               end.
Proof. reflexivity. Qed.

(** A call of [stats] that returns has its result in the cache. *)
Lemma stats_Ok_cached (w w' : world) (self : ref) (p : bool) (s : summary) :
  TrajectoryData.stats self p w = (Ok s, w') →
  ∃ a u, heap w' !! self = Some (Obj.mk a (Upd u)) ∧ _stats u = Some s.
Proof.
  unfold TrajectoryData.stats. rewrite M_bind_unfold. unfold deref.
  destruct (heap w !! self) as [[a [|u]]|] eqn:Hs; simpl; [done| |done].
  assert (self < List.length (heap w))%nat as Hlt by by eapply lookup_lt_Some.
  destruct (_stats u) as [c|] eqn:Hc.
  { intros H. apply then_print in H as (Hh & _ & _ & Hr & _).
    rewrite (Hr s eq_refl). exists a, u. by rewrite Hh. }
  rewrite M_bind_unfold. unfold lift at 1.
  destruct (TrajectoryData.summarise _ u) as [s0|]; simpl; [|done].
  rewrite M_bind_unfold. unfold store at 1. rewrite M_bind_unfold.
  destruct (TrajectoryData.is_None (labels u)); simpl.
  - intros H. apply then_print in H as (Hh & _ & _ & Hr & _).
    rewrite (Hr s eq_refl). eexists a, _. rewrite Hh. simpl.
    split; [by apply list_lookup_insert_eq|done].
  - rewrite M_bind_unfold. unfold lift at 1.
    destruct (TrajectoryData.label_summary (labels u)) as [l|]; simpl; [|done].
    intros H. apply then_print in H as (Hh & _ & _ & Hr & _).
    rewrite (Hr s eq_refl). eexists a, _. rewrite Hh. simpl.
    split; [apply list_lookup_insert_eq; by rewrite length_insert|done].
Qed.

(** X10: a call of [stats] that returns, with or without printing, leaves
    its summary in the attribute [_stats] of the instance; and [stats] on
    an instance whose [_stats] holds a summary hands that summary back
    without looking at the data and without changing anything.  So the next
    call returns the same summary and changes nothing. *)
Theorem X10_stats_cached_after_first_call
    (w w' : world) (self : ref) (print_stats : bool) (s : summary) :
  TrajectoryData.stats self print_stats w = (Ok s, w') →
  (∃ a u, heap w' !! self = Some (Obj.mk a (Upd u)) ∧ _stats u = Some s) ∧
  (∀ w0 a u c,
     heap w0 !! self = Some (Obj.mk a (Upd u)) →
     _stats u = Some c →
     TrajectoryData.stats self false w0 = (Ok c, w0)) ∧
  TrajectoryData.stats self false w' = (Ok s, w').
Proof.
  intros (a & u & Hs & Hc)%stats_Ok_cached. split_and!.
  - eauto.
  - intros w0 a0 u0 c H0 Hc0. by eapply stats_cached.
  - by eapply stats_cached.
Qed.

End StatsFacts.

Section StatsTheorems.
Import Pandas Obj Layout.

Lemma X10_scenario :
  ∃ s w' a u,
    TrajectoryData.stats Scenario.d0 true Scenario.two_arrays = (Ok s, w') ∧
    heap w' !! Scenario.d0 = Some (Obj.mk a (Upd u)) ∧ _stats u = Some s ∧
    TrajectoryData.stats Scenario.d0 false w' = (Ok s, w').
Proof.
  pose (r := TrajectoryData.stats Scenario.d0 true Scenario.two_arrays).
  assert (∃ s, r.1 = Ok s) as [s Hs] by (eexists; vm_compute; reflexivity).
  assert (TrajectoryData.stats Scenario.d0 true Scenario.two_arrays = (Ok s, r.2)) as Hr.
  { rewrite <- Hs. apply surjective_pairing. }
  destruct (X10_stats_cached_after_first_call Scenario.two_arrays r.2 Scenario.d0 true s Hr)
    as ((a & u & Hh & Hc) & _ & Hnext).
  exists s, r.2, a, u. split_and!; assumption.
Defined.

(** Without printing, [stats] writes nothing to the output or the files. *)
Lemma stats_silent (w w' : world) (self : ref) (r : result summary) :
  TrajectoryData.stats self false w = (r, w') →
  stdout w' = stdout w ∧ files w' = files w.
Proof.
  unfold TrajectoryData.stats. rewrite M_bind_unfold. unfold deref.
  destruct (heap w !! self) as [[a [|u]]|]; simpl; try by intros [= _ <-].
  destruct (_stats u); [by intros [= _ <-]|].
  rewrite M_bind_unfold. unfold lift at 1.
  destruct (TrajectoryData.summarise _ u) as [s0|]; simpl; [|by intros [= _ <-]].
  rewrite M_bind_unfold. unfold store at 1. rewrite M_bind_unfold.
  destruct (TrajectoryData.is_None (labels u)); simpl; [by intros [= _ <-]|].
  rewrite M_bind_unfold. unfold lift at 1.
  destruct (TrajectoryData.label_summary (labels u)); simpl; by intros [= _ <-].
Qed.

(** [stats] with printing is [stats] without, followed by the report. *)
Lemma stats_print_split (w : world) (self : ref) :
  TrajectoryData.stats self true w =
    match TrajectoryData.stats self false w with
    | (Ok s, w1) => (TrajectoryData._print_stats self;; mret s) w1
    | (Raise e, w1) => (Raise e, w1)
    end.
Proof.
  unfold TrajectoryData.stats. rewrite !(M_bind_unfold (deref self)). unfold deref.
  destruct (heap w !! self) as [[a [|u]]|]; simpl; try done.
  destruct (_stats u); [done|].
  rewrite !(M_bind_unfold (lift _)). unfold lift at 1 3.
  destruct (TrajectoryData.summarise _ u) as [s0|]; simpl; [|done].
  rewrite !(M_bind_unfold (store _ _)). unfold store at 1 3.
  destruct (TrajectoryData.is_None (labels u)); simpl; [done|].
  rewrite !M_bind_unfold. unfold lift at 1 2.
  destruct (TrajectoryData.label_summary (labels u)); simpl; done.
Qed.

(** X11: printing does not change what [stats] returns or caches: when
    the printing call returns a summary, the silent call returns the same
    summary and leaves the same instances and files, and writes nothing to
    the output. *)
Theorem X11_stats_print_does_not_change_result
    (w w1 : world) (self : ref) (s : summary) :
  TrajectoryData.stats self true w = (Ok s, w1) →
  ∃ w2,
    TrajectoryData.stats self false w = (Ok s, w2) ∧
    heap w2 = heap w1 ∧ files w2 = files w1 ∧ stdout w2 = stdout w.
Proof.
  rewrite stats_print_split.
  destruct (TrajectoryData.stats self false w) as [[s0|e] w2] eqn:Hsilent; [|done].
  intros H. apply (then_print true) in H as (Hh & Hf & _ & Hr & _).
  rewrite (Hr s eq_refl). exists w2. apply stats_silent in Hsilent as [? ?].
  by split_and!.
Qed.

Lemma X11_scenario :
  ∃ s w1 w2,
    TrajectoryData.stats Scenario.d0 true Scenario.two_arrays = (Ok s, w1) ∧
    TrajectoryData.stats Scenario.d0 false Scenario.two_arrays = (Ok s, w2) ∧
    heap w2 = heap w1 ∧ stdout w2 = [].
Proof.
  pose (r := TrajectoryData.stats Scenario.d0 true Scenario.two_arrays).
  assert (∃ s, r.1 = Ok s) as [s Hs] by (eexists; vm_compute; reflexivity).
  destruct (X11_stats_print_does_not_change_result Scenario.two_arrays r.2
              Scenario.d0 s) as (w2 & H2 & Hh & _ & Hout).
  { rewrite <- Hs. apply surjective_pairing. }
  exists s, r.2, w2. split_and!; [|done|done|done].
  rewrite <- Hs. apply surjective_pairing.
Defined.

End StatsTheorems.

Section StatsContent.
Import Pandas Obj Layout.

Lemma np_min_spec (xs : list nat) (m : nat) :
  TrajectoryData.np_min xs = Ok m → m ∈ xs ∧ ∀ x, x ∈ xs → (m ≤ x)%nat.
Proof.
  destruct xs as [|x xs]; simpl; [done|]. intros [= <-].
  induction xs as [|y xs [IHin IHle]]; simpl.
  - split; [by left|]. intros z Hz%list_elem_of_singleton. by subst.
  - split.
    + destruct (Nat.min_spec y (foldr Nat.min x xs)) as [[_ ->]|[_ ->]].
      * right. by left.
      * apply elem_of_cons in IHin as [->|?]; [by left|by do 2 right].
    + intros z Hz. assert (z = y ∨ z ∈ x :: xs) as [->|Hz'].
      { rewrite !elem_of_cons in Hz. rewrite elem_of_cons. tauto. }
      * lia.
      * specialize (IHle z Hz'). lia.
Qed.

Lemma np_max_spec (xs : list nat) (m : nat) :
  TrajectoryData.np_max xs = Ok m → m ∈ xs ∧ ∀ x, x ∈ xs → (x ≤ m)%nat.
Proof.
  destruct xs as [|x xs]; simpl; [done|]. intros [= <-].
  induction xs as [|y xs [IHin IHle]]; simpl.
  - split; [by left|]. intros z Hz%list_elem_of_singleton. by subst.
  - split.
    + destruct (Nat.max_spec y (foldr Nat.max x xs)) as [[_ ->]|[_ ->]].
      * apply elem_of_cons in IHin as [->|?]; [by left|by do 2 right].
      * right. by left.
    + intros z Hz. assert (z = y ∨ z ∈ x :: xs) as [->|Hz'].
      { rewrite !elem_of_cons in Hz. rewrite elem_of_cons. tauto. }
      * lia.
      * specialize (IHle z Hz'). lia.
Qed.

Lemma describe_bounds (xs : list nat) (d : dist) :
  TrajectoryData.describe xs = Ok d →
  xs ≠ [] ∧ ∀ x, x ∈ xs → (d_min d ≤ x ≤ d_max d)%nat.
Proof.
  unfold TrajectoryData.describe.
  destruct (TrajectoryData.np_min xs) as [lo|] eqn:Hlo; simpl; [|done].
  destruct (TrajectoryData.np_max xs) as [hi|] eqn:Hhi; simpl; [|done].
  intros [= <-]. simpl.
  apply np_min_spec in Hlo as [Hin Hlo]. apply np_max_spec in Hhi as [_ Hhi].
  split; [by intros ->; apply elem_of_nil in Hin|].
  intros x Hx. split; [by apply Hlo|by apply Hhi].
Qed.

Lemma sum_lengths {A} (l : list (list A)) :
  foldr Nat.add O (List.length <$> l) = List.length (concat l).
Proof.
  induction l as [|x l IH]; [done|].
  rewrite fmap_cons. cbn [foldr concat]. by rewrite IH, length_app.
Qed.

(** What the summary computed by [stats] says about the data. *)
Lemma summarise_content (o : Obj.t) (u : updated) (s : summary) :
  TrajectoryData.summarise o u = Ok s →
  (∃ attrs, attributes o = Some attrs ∧ attribute_count s = List.length attrs) ∧
  concat (data u) ≠ [] ∧
  trajectory_count s = List.length (data u) ∧
  point_count s = List.length (concat (data u)) ∧
  (∀ traj, traj ∈ data u →
     (d_min (trajectory_length s) ≤ List.length traj ≤ d_max (trajectory_length s))%nat) ∧
  (∀ pt, pt ∈ concat (data u) →
     (d_min (attribute_dist s) ≤ TrajectoryData.count_not_none pt
      ≤ d_max (attribute_dist s))%nat) ∧
  label_block s = None.
Proof.
  unfold TrajectoryData.summarise, TrajectoryData.np_concatenate,
    TrajectoryData.get_attributes.
  destruct (data u) as [|traj0 rest] eqn:Hd; [done|]. rewrite <- Hd. clear Hd. simpl.
  destruct (attributes o) as [attrs|]; simpl; [|done].
  destruct (TrajectoryData.describe (TrajectoryData.count_not_none <$> concat (data u)))
    as [ad|] eqn:Had; simpl; [|done].
  destruct (TrajectoryData.describe (List.length <$> data u)) as [td|] eqn:Htd;
    simpl; [|done].
  intros [= <-]. simpl.
  apply describe_bounds in Had as [Hne Had]. apply describe_bounds in Htd as [_ Htd].
  split_and!; [eauto| |done|apply sum_lengths| | |done].
  - intros E. rewrite E in Hne. done.
  - intros traj Ht. apply Htd. by apply list_elem_of_fmap_2.
  - intros pt Hp. apply Had. by apply list_elem_of_fmap_2.
Qed.

Lemma label_summary_count (ls : list scalar) (l : nat * dist) :
  TrajectoryData.label_summary (LArray ls) = Ok l →
  l.1 = List.length (unique ls).
Proof.
  unfold TrajectoryData.label_summary, TrajectoryData.np_unique_counts.
  destruct (comparable ls); simpl; [|done].
  destruct (TrajectoryData.describe _); simpl; [|done].
  intros [= <-]. simpl. rewrite length_fmap.
  by rewrite sort_scalars_Permutation.
Qed.

(** The summary that an uncached call of [stats] returns. *)
Lemma stats_uncached_inv (w w' : world) (self : ref) (p : bool)
    (a : option (list string)) (u : updated) (s : summary) :
  heap w !! self = Some (Obj.mk a (Upd u)) →
  _stats u = None →
  TrajectoryData.stats self p w = (Ok s, w') →
  ∃ s0,
    TrajectoryData.summarise (Obj.mk a (Upd u)) u = Ok s0 ∧
    if TrajectoryData.is_None (labels u) then s = s0
    else ∃ l, TrajectoryData.label_summary (labels u) = Ok l ∧
              s = TrajectoryData.set_label_block s0 l.
Proof.
  intros Hs Hc. unfold TrajectoryData.stats. rewrite M_bind_unfold. unfold deref.
  rewrite Hs. simpl. rewrite Hc.
  rewrite M_bind_unfold. unfold lift at 1.
  destruct (TrajectoryData.summarise _ u) as [s0|]; simpl; [|done].
  rewrite M_bind_unfold. unfold store at 1. rewrite M_bind_unfold.
  destruct (TrajectoryData.is_None (labels u)); simpl.
  - intros H. apply then_print in H as (_ & _ & _ & Hr & _).
    exists s0. split; [done|]. by apply Hr.
  - rewrite M_bind_unfold. unfold lift at 1.
    destruct (TrajectoryData.label_summary (labels u)) as [l|]; simpl; [|done].
    intros H. apply then_print in H as (_ & _ & _ & Hr & _).
    exists s0. split; [done|]. exists l. split; [done|]. by apply Hr.
Qed.

(** The two counts of an uncached call of [stats]. *)
Lemma stats_uncached_counts (w w' : world) (self : ref) (p : bool)
    (a : option (list string)) (u : updated) (s : summary) :
  heap w !! self = Some (Obj.mk a (Upd u)) →
  _stats u = None →
  TrajectoryData.stats self p w = (Ok s, w') →
  trajectory_count s = List.length (data u) ∧
  point_count s = List.length (concat (data u)).
Proof.
  intros Hs Hc (s0 & Hsum & Hlab)%(stats_uncached_inv _ _ _ _ a u); [|done..].
  apply summarise_content in Hsum as (_ & _ & Ht & Hp & _).
  destruct (TrajectoryData.is_None (labels u)); [by subst|].
  destruct Hlab as (l & _ & ->). done.
Qed.

(** X12: the summary that [stats] computes for an instance in the array
    representation counts the attributes, the trajectories and all their
    points; the reported minimum and maximum bound the length of every
    trajectory and the number of values that are not [None] of every point;
    the label block is absent exactly when [labels] is [None], and counts
    the distinct labels of a label array. *)
Theorem X12_stats_summary_content
    (w w' : world) (self : ref) (p : bool)
    (a : option (list string)) (u : updated) (s : summary) :
  heap w !! self = Some (Obj.mk a (Upd u)) →
  _stats u = None →
  TrajectoryData.stats self p w = (Ok s, w') →
  (∃ attrs, a = Some attrs ∧ attribute_count s = List.length attrs) ∧
  trajectory_count s = List.length (data u) ∧
  point_count s = List.length (concat (data u)) ∧
  (∀ traj, traj ∈ data u →
     (d_min (trajectory_length s) ≤ List.length traj ≤ d_max (trajectory_length s))%nat) ∧
  (∀ pt, pt ∈ concat (data u) →
     (d_min (attribute_dist s) ≤ TrajectoryData.count_not_none pt
      ≤ d_max (attribute_dist s))%nat) ∧
  match labels u with
  | LNone => label_block s = None
  | LArray ls => ∃ d, label_block s = Some (List.length (unique ls), d)
  | LArray0 => ∃ d, label_block s = Some (1%nat, d)
  end.
Proof.
  intros Hs Hc (s0 & Hsum & Hlab)%(stats_uncached_inv _ _ _ _ a u); [|done..].
  apply summarise_content in Hsum as (Ha & _ & Ht & Hp & Htl & Hal & Hb).
  simpl in Ha.
  assert (attribute_count s = attribute_count s0 ∧
          trajectory_count s = trajectory_count s0 ∧
          point_count s = point_count s0 ∧
          trajectory_length s = trajectory_length s0 ∧
          attribute_dist s = attribute_dist s0) as (-> & -> & -> & -> & ->).
  { destruct (TrajectoryData.is_None (labels u)); [by subst|].
    destruct Hlab as (l & _ & ->). done. }
  split_and!; try done.
  destruct (labels u) as [|ls|] eqn:Hl; simpl in Hlab.
  - by subst.
  - destruct Hlab as ([c d] & Hl' & ->). simpl.
    apply label_summary_count in Hl'. simpl in Hl'. subst c. eauto.
  - destruct Hlab as ([c d] & Hl' & ->). simpl.
    unfold TrajectoryData.label_summary in Hl'. simpl in Hl'.
    injection Hl' as <- <-. eauto.
Qed.

Lemma X12_scenario :
  ∃ s w',
    TrajectoryData.stats Scenario.d1 false Scenario.two_arrays = (Ok s, w') ∧
    trajectory_count s = 1%nat ∧ point_count s = 2%nat.
Proof.
  pose (r := TrajectoryData.stats Scenario.d1 false Scenario.two_arrays).
  assert (∃ s, r.1 = Ok s) as [s Hs] by (eexists; vm_compute; reflexivity).
  assert (TrajectoryData.stats Scenario.d1 false Scenario.two_arrays = (Ok s, r.2)) as Hr.
  { rewrite <- Hs. apply surjective_pairing. }
  destruct (X12_stats_summary_content Scenario.two_arrays r.2 Scenario.d1 false
              (Some ["poi"])
              {| Obj.tids := [SInt 1];
                 Obj.labels := LArray [SStr "b"];
                 Obj.data := [[[Some (SStr "park")]; [Some (SStr "shop")]]];
                 Obj.tidToIdx := [(SInt 1, O)];
                 Obj.labelToIdx := Some [(SStr "b", [O])];
                 Obj._stats := None |} s eq_refl eq_refl Hr)
    as (_ & Ht & Hp & _).
  exists s, r.2. split; [exact Hr|]. split; [exact Ht|exact Hp].
Defined.

End StatsContent.

Section StatsEdges.
Import Pandas Obj Layout.

Lemma describe_nil (d : dist) : TrajectoryData.describe [] ≠ Ok d.
Proof. done. Qed.

(** X13: on an instance that holds no point (no trajectory, or empty
    trajectories only) and has no cached summary, [stats] raises
    [ValueError], with or without printing, and caches nothing. *)
Theorem X13_stats_without_points_raises
    (w : world) (self : ref) (attrs : list string) (u : updated) (p : bool) :
  heap w !! self = Some (Obj.mk (Some attrs) (Upd u)) →
  _stats u = None →
  concat (data u) = [] →
  ∃ msg, TrajectoryData.stats self p w = (Raise (ValueError msg), w).
Proof.
  intros Hs Hc Hnil. unfold TrajectoryData.stats. rewrite M_bind_unfold.
  unfold deref. rewrite Hs. simpl. rewrite Hc.
  rewrite M_bind_unfold. unfold lift at 1.
  unfold TrajectoryData.summarise, TrajectoryData.np_concatenate.
  destruct (data u) as [|traj rest] eqn:Hd; [simpl; eauto|].
  rewrite Hnil. simpl. eauto.
Qed.

Lemma X13_scenario :
  ∃ msg,
    TrajectoryData.stats Scenario.d0 false
      (mkWorld [Obj.mk (Some ["poi"]) (Upd (TrajectoryData.bindings [] [] (Some [])))] ∅ [])
    = (Raise (ValueError msg),
       mkWorld [Obj.mk (Some ["poi"]) (Upd (TrajectoryData.bindings [] [] (Some [])))] ∅ []).
Proof.
  exact (X13_stats_without_points_raises
           (mkWorld [Obj.mk (Some ["poi"]) (Upd (TrajectoryData.bindings [] [] (Some [])))] ∅ [])
           Scenario.d0 ["poi"] (TrajectoryData.bindings [] [] (Some [])) false
           eq_refl eq_refl eq_refl).
Defined.

(** X14: [merge] and [stats] compose: the summary computed after a merge
    that returned counts the trajectories of the merged instance, never
    fewer than the receiver had; a summary cached before the merge is not
    handed back. *)
Theorem X14_stats_after_merge_counts_merged_data
    (w w1 w2 : world) (self other r : ref) (ignore_duplicates inplace p : bool)
    (s : summary) :
  TrajectoryData.merge self other ignore_duplicates inplace w = (Ok r, w1) →
  TrajectoryData.stats r p w1 = (Ok s, w2) →
  ∃ a u u',
    heap w !! self = Some (Obj.mk a (Upd u)) ∧
    heap w1 !! r = Some (Obj.mk a (Upd u')) ∧
    trajectory_count s = List.length (data u') ∧
    point_count s = List.length (concat (data u')) ∧
    (List.length (data u) ≤ trajectory_count s)%nat.
Proof.
  intros (-> & a & u & v & o & ts & ds & labs & Hs & Ho & Hv & -> & _)%merge_Ok_inv Hst.
  set (u' := TrajectoryData.bindings (data u ++ ds) (tids u ++ ts) labs) in *.
  assert (heap (mkWorld (<[self := Obj.mk a (Upd u')]> (heap w)) (files w) (stdout w))
            !! self = Some (Obj.mk a (Upd u'))) as Hs'.
  { simpl. apply list_lookup_insert_eq. by eapply lookup_lt_Some. }
  destruct (stats_uncached_counts _ _ _ _ _ _ _ Hs' eq_refl Hst) as [Ht Hp].
  exists a, u, u'. split_and!; try done.
  rewrite Ht. simpl. rewrite length_app. lia.
Qed.

Lemma X14_scenario :
  ∃ w1 w2 s,
    TrajectoryData.merge Scenario.d0 Scenario.d1 true true Scenario.two_aligned
      = (Ok Scenario.d0, w1) ∧
    TrajectoryData.stats Scenario.d0 false w1 = (Ok s, w2) ∧
    trajectory_count s = 2%nat ∧ point_count s = 2%nat.
Proof.
  pose (m := TrajectoryData.merge Scenario.d0 Scenario.d1 true true Scenario.two_aligned).
  pose (r := TrajectoryData.stats Scenario.d0 false m.2).
  assert (∃ s, r.1 = Ok s) as [s Hs] by (eexists; vm_compute; reflexivity).
  assert (TrajectoryData.stats Scenario.d0 false m.2 = (Ok s, r.2)) as Hr.
  { rewrite <- Hs. apply surjective_pairing. }
  assert (TrajectoryData.merge Scenario.d0 Scenario.d1 true true Scenario.two_aligned
          = (Ok Scenario.d0, m.2)) as Hm by (vm_compute; reflexivity).
  destruct (X14_stats_after_merge_counts_merged_data _ _ _ _ _ _ _ _ _ _ Hm Hr)
    as (a & u & u' & _ & Hu' & Ht & Hp & _).
  exists m.2, r.2, s. split; [exact Hm|]. split; [exact Hr|].
  assert (Some (Obj.mk a (Upd u')) = heap m.2 !! Scenario.d0) as E by (symmetry; exact Hu').
  vm_compute in E. injection E as -> ->. split; [exact Ht|exact Hp].
Defined.

End StatsEdges.

(** ** Export in the array representation *)

Section ExportFacts.
Import Pandas Obj Layout.







End ExportFacts.

(** ** The distinct labels *)

Section LabelsFacts.
Import Pandas Obj Layout.

Lemma comparable_sub (l m : list scalar) :
  (∀ x, x ∈ m → x ∈ l) → comparable l = true → comparable m = true.
Proof.
  unfold comparable. rewrite !orb_true_iff, !forallb_forall.
  intros Hsub [H|H]; [left|right]; intros x Hx%list_elem_of_In;
    by apply H, list_elem_of_In, Hsub.
Qed.

Lemma comparable_unique (l : list scalar) :
  comparable l = true → comparable (unique l) = true.
Proof. apply comparable_sub. intros x. by rewrite elem_of_unique. Qed.

Lemma sorted_set_spec (vals l : list scalar) :
  TrajectoryData.sorted_set vals = Ok l →
  StronglySorted scalar_le l ∧ NoDup l ∧ ∀ x, x ∈ l ↔ x ∈ vals.
Proof.
  unfold TrajectoryData.sorted_set.
  destruct (comparable (unique vals)); [|done]. intros [= <-]. split_and!.
  - apply Sorted_StronglySorted; [apply _|]. apply sort_scalars_Sorted.
  - rewrite sort_scalars_Permutation. apply NoDup_unique.
  - intros x. by rewrite elem_of_sort_scalars, elem_of_unique.
Qed.

(** X16: [get_labels(unique=True)] returns the distinct labels in
    ascending order, on a constructed dataset (the values of its label
    series) as on a label array; it returns whenever the labels are of one
    type. *)
Theorem X16_get_labels_unique_sorted (o : Obj.t) (vals : list scalar) :
  match env o with
  | Init _ s => vals = values s
  | Upd u => labels u = LArray vals
  end →
  (comparable vals = true →
   ∃ l, TrajectoryData.get_labels true o = Ok (TrajectoryData.SortedList l)) ∧
  (∀ l, TrajectoryData.get_labels true o = Ok (TrajectoryData.SortedList l) →
        StronglySorted scalar_le l ∧ NoDup l ∧ ∀ x, x ∈ l ↔ x ∈ vals).
Proof.
  intros Hvals.
  assert (TrajectoryData.get_labels true o
          = TrajectoryData.SortedList <$> TrajectoryData.sorted_set vals) as ->.
  { unfold TrajectoryData.get_labels. destruct (env o) as [df s|u]; [by subst|].
    by rewrite Hvals. }
  split.
  - intros Hc%comparable_unique. unfold TrajectoryData.sorted_set. rewrite Hc.
    simpl. eauto.
  - intros l. destruct (TrajectoryData.sorted_set vals) as [l'|] eqn:E; [|done].
    intros [= <-]. by apply sorted_set_spec.
Qed.

Lemma X16_scenario :
  ∃ l, TrajectoryData.get_labels true Scenario.constructed
       = Ok (TrajectoryData.SortedList l).
Proof.
  destruct (X16_get_labels_unique_sorted Scenario.constructed [SStr "a"; SStr "b"] eq_refl)
    as [H _].
  apply H. reflexivity.
Defined.

End LabelsFacts.

(** ** Loading *)

Section LoadFacts.
Import Pandas Obj Layout.

(** [load] with a label column, step by step. *)
Lemma load_labelled (ld : CSVTrajectoryLoader.t) (table : DataFrame) (w : world)
    (lc : string) :
  CSVTrajectoryLoader.label_col ld = Some lc →
  let df := CSVTrajectoryLoader.read_renamed ld table in
  let real := if String.eqb lc (CSVTrajectoryLoader.tid_col ld) then "tid" else lc in
  CSVTrajectoryLoader.load ld table w =
    match indexed_column "tid" real df with
    | Raise e => (Raise e, w)
    | Ok s =>
        match (if negb (String.eqb real "tid") then drop real df else Ok df) with
        | Raise e => (Raise e, w)
        | Ok df' =>
            match TrajectoryData.__init__ df' (Some (drop_duplicates s)) with
            | Raise e => (Raise e, w)
            | Ok o => (Ok (List.length (heap w)),
                       mkWorld (heap w ++ [o]) (files w) (stdout w))
            end
        end
    end.
Proof.
  intros Hl. simpl. unfold CSVTrajectoryLoader.load. rewrite Hl.
  unfold TrajectoryData.new, mbind, M_bind, lift, mret, M_ret.
  destruct (indexed_column "tid" _ _) as [s|]; simpl; [|done].
  destruct (negb (String.eqb _ "tid")); simpl.
  - destruct (drop _ _) as [df'|]; simpl; [|done].
    by destruct (TrajectoryData.__init__ df' _).
  - by destruct (TrajectoryData.__init__ _ _).
Qed.

Lemma fmap_filter_ext {A B} (f : A → B) (P : A → Prop) (Q : B → Prop)
    `{∀ x, Decision (P x)} `{∀ y, Decision (Q y)} (l : list A) :
  (∀ x, x ∈ l → (P x ↔ Q (f x))) →
  f <$> filter P l = filter Q (f <$> l).
Proof.
  induction l as [|x l IH]; intros Hext; [done|].
  rewrite fmap_cons, !filter_cons.
  assert (P x ↔ Q (f x)) as Hx by (apply Hext; by left).
  specialize (IH ltac:(intros y Hy; apply Hext; by right)).
  destruct (decide (P x)), (decide (Q (f x))); try tauto.
  by rewrite fmap_cons, IH.
Qed.

Lemma drop_duplicates_repr (s : Series) (p : scalar * scalar) :
  p ∈ s → ∃ q, q ∈ drop_duplicates s ∧ q.2 = p.2.
Proof.
  induction s as [|r s IH]; [by intros ?%elem_of_nil|].
  cbn [drop_duplicates]. intros [->|Hp]%elem_of_cons.
  - exists r. split; [by left|done].
  - destruct (decide (p.2 = r.2)) as [E|Hne].
    + exists r. split; [by left|done].
    + destruct (IH Hp) as (q & Hq & Hq2). exists q. split; [|done].
      right. apply list_elem_of_filter. split; [congruence|done].
Qed.

(** When tids and labels determine each other, [drop_duplicates] keeps
    one row per tid: the first. *)
Lemma drop_duplicates_index (s : Series) :
  (∀ p q, p ∈ s → q ∈ s → (p.1 = q.1 ↔ p.2 = q.2)) →
  index (drop_duplicates s) = unique (index s).
Proof.
  unfold index. induction s as [|p s IH]; intros Hbij; [done|].
  cbn [drop_duplicates]. rewrite !fmap_cons. cbn [unique]. f_equal.
  rewrite <- IH by (intros q r Hq Hr; apply Hbij; by right).
  apply fmap_filter_ext. intros q Hq%drop_duplicates_sub.
  specialize (Hbij q p (list_elem_of_further _ _ _ Hq) (list_elem_of_here _ _)).
  tauto.
Qed.

Lemma drop_duplicates_elem (s : Series) (p : scalar * scalar) :
  (∀ p q, p ∈ s → q ∈ s → (p.1 = q.1 ↔ p.2 = q.2)) →
  p ∈ drop_duplicates s ↔ p ∈ s.
Proof.
  intros Hbij. split; [apply drop_duplicates_sub|].
  intros Hp. destruct (drop_duplicates_repr s p Hp) as (q & Hq & Hq2).
  assert (q.1 = p.1) as Hq1.
  { apply Hbij; [by apply drop_duplicates_sub|done|done]. }
  destruct p, q. simpl in *. by subst.
Qed.

Lemma column_length (c c' : string) (df : DataFrame) (xs ys : list scalar) :
  column c df = Ok xs → column c' df = Ok ys → List.length xs = List.length ys.
Proof.
  intros (i & _ & ->)%column_Ok (j & _ & ->)%column_Ok. by rewrite !length_fmap.
Qed.

(** The dataset that [load] constructs from a table with the tid cells
    [tids] and the label cells [vals], when the tids can be sorted and the
    tid and the label of a row determine each other. *)
Lemma load_one_to_one (ld : CSVTrajectoryLoader.t) (table : DataFrame) (w : world)
    (lc real : string) (df' : DataFrame) (tids vals : list scalar) :
  CSVTrajectoryLoader.label_col ld = Some lc →
  real = (if String.eqb lc (CSVTrajectoryLoader.tid_col ld) then "tid" else lc) →
  column "tid" (CSVTrajectoryLoader.read_renamed ld table) = Ok tids →
  column real (CSVTrajectoryLoader.read_renamed ld table) = Ok vals →
  (if negb (String.eqb real "tid")
   then drop real (CSVTrajectoryLoader.read_renamed ld table)
   else Ok (CSVTrajectoryLoader.read_renamed ld table)) = Ok df' →
  column "tid" df' = Ok tids →
  comparable tids = true →
  (∀ p q, p ∈ zip tids vals → q ∈ zip tids vals → (p.1 = q.1 ↔ p.2 = q.2)) →
  ∃ rows' labels',
    CSVTrajectoryLoader.load ld table w
    = (Ok (List.length (heap w)),
       mkWorld (heap w ++ [Obj.mk None (Init (mkDataFrame (columns df') rows') labels')])
               (files w) (stdout w)) ∧
    rows' ≡ₚ rows df' ∧
    column "tid" (mkDataFrame (columns df') rows') = Ok (sort_scalars tids) ∧
    index labels' = unique (sort_scalars tids) ∧
    (∀ p, p ∈ labels' ↔ p ∈ zip tids vals).
Proof.
  intros Hl -> Htids Hvals Hdf' Htids' Hc Hbij.
  rewrite (load_labelled ld table w lc Hl). simpl.
  unfold indexed_column. rewrite Htids, Hvals. simpl. rewrite Hdf'.
  apply column_Ok in Htids' as (i & Hi & Hcells).
  assert (index (zip tids vals) = tids) as Hidx.
  { unfold index. apply fst_zip. by rewrite (column_length _ _ _ _ _ Htids Hvals). }
  assert (index (drop_duplicates (zip tids vals)) = unique tids) as Hdd.
  { by rewrite drop_duplicates_index, Hidx. }
  rewrite (init_labelled df' _ i Hi).
  2: { by rewrite <- Hcells. }
  2: { rewrite Hdd. by apply comparable_unique. }
  rewrite <- Hcells, Hdd. rewrite bool_decide_eq_true_2.
  2: { apply unique_sorted_eq_iff. split; [apply NoDup_unique|].
       intros x. apply elem_of_unique. }
  eexists _, _. split; [done|]. split_and!.
  - apply sort_by_Permutation.
  - unfold column. simpl. rewrite Hi. by rewrite sort_by_fmap, <- Hcells.
  - unfold index in *. rewrite sort_by_fmap, Hdd.
    symmetry. apply unique_sorted_eq_iff. split; [apply NoDup_unique|].
    intros x. apply elem_of_unique.
  - intros p. by rewrite sort_by_Permutation, drop_duplicates_elem.
Qed.

End LoadFacts.

Section LoadTheorems.
Import Pandas Obj Layout.

Lemma zip_diag_elem (l : list scalar) (p : scalar * scalar) :
  p ∈ zip l l → p.1 = p.2.
Proof.
  induction l as [|x l IH]; simpl; [by intros ?%elem_of_nil|].
  intros [->|Hp]%elem_of_cons; [done|by apply IH].
Qed.

Lemma has_column_false (c : string) (df : DataFrame) :
  has_column c df = false ↔ column c df = Raise (KeyError (SStr c)).
Proof.
  unfold column. destruct (col_index c (columns df)) as [i|] eqn:E.
  - split; [|done]. intros H.
    assert (has_column c df = true) as H' by (apply has_column_true; eauto). congruence.
  - split; [done|]. intros _.
    destruct (has_column c df) eqn:H; [|done].
    apply has_column_true in H as [i Hi]. congruence.
Qed.

(** X17: with the tid column as the label column, [load] returns a new
    dataset for every table of distinct column names whose tid column is
    present and can be sorted:
    the table keeps all its columns, [tid] among them, and every distinct
    tid is its own label. *)
Theorem X17_load_labels_from_tid_column
    (ld : CSVTrajectoryLoader.t) (table : DataFrame) (w : world) (tids : list scalar) :
  CSVTrajectoryLoader.label_col ld = Some (CSVTrajectoryLoader.tid_col ld) →
  NoDup (columns (CSVTrajectoryLoader.read_renamed ld table)) →
  column "tid" (CSVTrajectoryLoader.read_renamed ld table) = Ok tids →
  comparable tids = true →
  ∃ rows' labels',
    CSVTrajectoryLoader.load ld table w
    = (Ok (List.length (heap w)),
       mkWorld (heap w ++
                [Obj.mk None
                   (Init (mkDataFrame (columns (CSVTrajectoryLoader.read_renamed ld table)) rows')
                         labels')])
               (files w) (stdout w)) ∧
    rows' ≡ₚ rows (CSVTrajectoryLoader.read_renamed ld table) ∧
    column "tid" (mkDataFrame (columns (CSVTrajectoryLoader.read_renamed ld table)) rows')
      = Ok (sort_scalars tids) ∧
    index labels' = unique (sort_scalars tids) ∧
    (∀ p, p ∈ labels' → p.2 = p.1).
Proof.
  intros Hl _ Htids Hc.
  destruct (load_one_to_one ld table w (CSVTrajectoryLoader.tid_col ld) "tid"
              (CSVTrajectoryLoader.read_renamed ld table) tids tids Hl)
    as (rows' & labels' & Hload & Hperm & Hcol & Hidx & Hel); try done.
  - by rewrite String.eqb_refl.
  - intros p q Hp%zip_diag_elem Hq%zip_diag_elem. split; congruence.
  - exists rows', labels'. split_and!; try done.
    intros p Hp%Hel%zip_diag_elem. done.
Qed.

Lemma X17_scenario :
  ∃ rows' labels',
    CSVTrajectoryLoader.load Scenario.tid_label_loader Scenario.table Scenario.empty_world
    = (Ok O,
       mkWorld [Obj.mk None (Init (mkDataFrame ["tid"; "poi"] rows') labels')] ∅ []) ∧
    index labels' = unique (sort_scalars [SInt 2; SInt 2; SInt 1; SInt 1]).
Proof.
  destruct (X17_load_labels_from_tid_column Scenario.tid_label_loader Scenario.table
              Scenario.empty_world [SInt 2; SInt 2; SInt 1; SInt 1] eq_refl)
    as (rows' & labels' & Hload & _ & _ & Hidx & _).
  - apply (bool_decide_unpack _). vm_compute. exact I.
  - reflexivity.
  - reflexivity.
  - exists rows', labels'. split; [exact Hload|exact Hidx].
Defined.

(** X18: with a label column of its own, on a table of distinct column
    names, [load] returns a new dataset whenever the tids can be sorted and,
    over the rows of the table, the tid and the label determine each
    other.  The dataset then has exactly
    one label per distinct tid, the label that the table pairs with it;
    the label column is dropped from the table and the column [tid] is
    kept. *)
Theorem X18_load_one_label_per_tid
    (ld : CSVTrajectoryLoader.t) (table : DataFrame) (w : world)
    (lc : string) (tids vals : list scalar) :
  CSVTrajectoryLoader.label_col ld = Some lc →
  lc ≠ CSVTrajectoryLoader.tid_col ld →
  lc ≠ "tid" →
  NoDup (columns (CSVTrajectoryLoader.read_renamed ld table)) →
  column "tid" (CSVTrajectoryLoader.read_renamed ld table) = Ok tids →
  column lc (CSVTrajectoryLoader.read_renamed ld table) = Ok vals →
  comparable tids = true →
  (∀ t1 v1 t2 v2,
     (t1, v1) ∈ zip tids vals → (t2, v2) ∈ zip tids vals → (t1 = t2 ↔ v1 = v2)) →
  ∃ df' labels',
    CSVTrajectoryLoader.load ld table w
    = (Ok (List.length (heap w)),
       mkWorld (heap w ++ [Obj.mk None (Init df' labels')]) (files w) (stdout w)) ∧
    (lc ∉ columns df') ∧
    column "tid" df' = Ok (sort_scalars tids) ∧
    index labels' = unique (sort_scalars tids) ∧
    (∀ t v, (t, v) ∈ labels' ↔ (t, v) ∈ zip tids vals).
Proof.
  intros Hl Hne Hne' _ Htids Hvals Hc Hbij.
  set (df := CSVTrajectoryLoader.read_renamed ld table) in *.
  assert (drop lc df = Ok (select_columns (λ c', negb (String.eqb c' lc)) df)) as Hdrop.
  { unfold drop. apply column_Ok in Hvals as (j & Hj & _).
    assert (has_column lc df = true) as -> by (apply has_column_true; eauto). done. }
  destruct (load_one_to_one ld table w lc lc
              (select_columns (λ c', negb (String.eqb c' lc)) df) tids vals Hl)
    as (rows' & labels' & Hload & Hperm & Hcol & Hidx & Hel); try done.
  - by destruct (String.eqb_spec lc (CSVTrajectoryLoader.tid_col ld)).
  - by destruct (String.eqb_spec lc "tid").
  - eapply column_drop; [|done|done]. congruence.
  - intros [t1 v1] [t2 v2] Hp Hq. simpl. by apply Hbij.
  - eexists _, labels'. split; [exact Hload|]. split_and!; try done.
    simpl. intros Hin%list_elem_of_In%filter_In. destruct Hin as [_ Hin].
    by rewrite String.eqb_refl in Hin.
Qed.

Lemma X18_scenario :
  ∃ df' labels',
    CSVTrajectoryLoader.load Scenario.default_loader
      (mkDataFrame ["tid"; "label"; "poi"]
         [[SInt 1; SStr "a"; SStr "home"]; [SInt 2; SStr "b"; SStr "work"]])
      Scenario.empty_world
    = (Ok O, mkWorld [Obj.mk None (Init df' labels')] ∅ []) ∧
    ("label" ∉ columns df') ∧
    index labels' = unique (sort_scalars [SInt 1; SInt 2]).
Proof.
  destruct (X18_load_one_label_per_tid Scenario.default_loader
              (mkDataFrame ["tid"; "label"; "poi"]
                 [[SInt 1; SStr "a"; SStr "home"]; [SInt 2; SStr "b"; SStr "work"]])
              Scenario.empty_world "label" [SInt 1; SInt 2] [SStr "a"; SStr "b"] eq_refl)
    as (df' & labels' & Hload & Hlc & _ & Hidx & _); try (vm_compute; reflexivity).
  - discriminate.
  - discriminate.
  - apply (bool_decide_unpack _). vm_compute. exact I.
  - intros t1 v1 t2 v2 H1 H2. simpl in H1, H2.
    rewrite !elem_of_cons, elem_of_nil in H1, H2.
    destruct H1 as [[= -> ->]|[[= -> ->]|[]]], H2 as [[= -> ->]|[[= -> ->]|[]]];
      split; intros; try reflexivity; discriminate.
  - exists df', labels'. split; [exact Hload|]. split; [exact Hlc|exact Hidx].
Defined.

(** X19: a missing column when a label column is configured surfaces as
    [KeyError], not as the error of the constructor: without a column
    [tid] the load raises the [KeyError] of [set_index], whose argument is
    the sentence [None of ['tid'] are in the columns] (the constructor's
    [ValueError] only when no label column is configured); with [tid]
    present, in a table of distinct column names, and the label column
    missing, it raises [KeyError] with that column's name.  Nothing is
    allocated. *)
Theorem X19_load_missing_columns
    (ld : CSVTrajectoryLoader.t) (table : DataFrame) (w : world) :
  (has_column "tid" (CSVTrajectoryLoader.read_renamed ld table) = false →
   CSVTrajectoryLoader.load ld table w
   = (Raise (match CSVTrajectoryLoader.label_col ld with
             | None => TrajectoryData.schema_error
             | Some _ => KeyError (SStr "None of ['tid'] are in the columns")
             end), w)) ∧
  (∀ lc tids,
     CSVTrajectoryLoader.label_col ld = Some lc →
     NoDup (columns (CSVTrajectoryLoader.read_renamed ld table)) →
     column "tid" (CSVTrajectoryLoader.read_renamed ld table) = Ok tids →
     has_column (if String.eqb lc (CSVTrajectoryLoader.tid_col ld) then "tid" else lc)
                (CSVTrajectoryLoader.read_renamed ld table) = false →
     CSVTrajectoryLoader.load ld table w
     = (Raise (KeyError (SStr (if String.eqb lc (CSVTrajectoryLoader.tid_col ld)
                               then "tid" else lc))), w)).
Proof.
  split.
  - intros Hno. destruct (CSVTrajectoryLoader.label_col ld) as [lc|] eqn:Hl.
    + rewrite (load_labelled ld table w lc Hl). simpl. unfold indexed_column.
      apply has_column_false in Hno. rewrite Hno. reflexivity.
    + unfold CSVTrajectoryLoader.load. rewrite Hl.
      unfold TrajectoryData.new, mbind, M_bind, lift.
      apply (init_schema_error _ None) in Hno. by rewrite Hno.
  - intros lc tids Hl _ Htids Hno.
    rewrite (load_labelled ld table w lc Hl). simpl. unfold indexed_column.
    apply has_column_false in Hno. by rewrite Htids, Hno.
Qed.

Lemma X19_scenario :
  CSVTrajectoryLoader.load Scenario.default_loader
    (mkDataFrame ["id"; "label"] [[SInt 1; SStr "a"]]) Scenario.empty_world
  = (Raise (KeyError (SStr "None of ['tid'] are in the columns")), Scenario.empty_world) ∧
  CSVTrajectoryLoader.load Scenario.default_loader Scenario.table Scenario.empty_world
  = (Raise (KeyError (SStr "label")), Scenario.empty_world).
Proof.
  split.
  - destruct (X19_load_missing_columns Scenario.default_loader
                (mkDataFrame ["id"; "label"] [[SInt 1; SStr "a"]])
                Scenario.empty_world) as [H _].
    apply H. reflexivity.
  - destruct (X19_load_missing_columns Scenario.default_loader Scenario.table
                Scenario.empty_world) as [_ H].
    apply (H "label" [SInt 2; SInt 2; SInt 1; SInt 1]); try (vm_compute; reflexivity).
    apply (bool_decide_unpack _). vm_compute. exact I.
Defined.

(** X20: [load] allocates at most one instance and touches nothing else.
    A load that raises leaves the world as it was; a load that returns
    hands back a fresh reference to a dataset in the state the constructor
    leaves ([data] and [labels] bound, [attributes] not), and the instances
    that existed are as before. *)
Theorem X20_load_allocates_one_instance
    (ld : CSVTrajectoryLoader.t) (table : DataFrame) (w w' : world) (r : result ref) :
  CSVTrajectoryLoader.load ld table w = (r, w') →
  files w' = files w ∧
  stdout w' = stdout w ∧
  match r with
  | Raise _ => w' = w
  | Ok x =>
      x = List.length (heap w) ∧
      (∃ df' labels', heap w' = heap w ++ [Obj.mk None (Init df' labels')]) ∧
      ∀ y o, heap w !! y = Some o → heap w' !! y = Some o
  end.
Proof.
  assert (∀ df labels,
            match TrajectoryData.__init__ df labels with
            | Ok o => ∃ df' labels', o = Obj.mk None (Init df' labels')
            | Raise _ => True
            end) as Hinit.
  { intros df labels. destruct (TrajectoryData.__init__ df labels) as [o|] eqn:E; [|done].
    apply init_Ok_inv in E as (i & s & _ & _ & _ & ->). eauto. }
  destruct (CSVTrajectoryLoader.label_col ld) as [lc|] eqn:Hl.
  - rewrite (load_labelled ld table w lc Hl). simpl.
    destruct (indexed_column _ _ _) as [s|]; [|by intros [= <- <-]].
    destruct (if negb _ then _ else _) as [df'|]; [|by intros [= <- <-]].
    specialize (Hinit df' (Some (drop_duplicates s))).
    destruct (TrajectoryData.__init__ df' _) as [o|]; [|by intros [= <- <-]].
    destruct Hinit as (df'' & labels' & ->). intros [= <- <-]. simpl.
    split_and!; try done; [eauto|].
    intros y o Hy. by apply lookup_app_l_Some.
  - unfold CSVTrajectoryLoader.load. rewrite Hl.
    unfold TrajectoryData.new, mbind, M_bind, lift, alloc.
    specialize (Hinit (CSVTrajectoryLoader.read_renamed ld table) None).
    destruct (TrajectoryData.__init__ _ None) as [o|]; [|by intros [= <- <-]].
    destruct Hinit as (df'' & labels' & ->). intros [= <- <-]. simpl.
    split_and!; try done; [eauto|].
    intros y o Hy. by apply lookup_app_l_Some.
Qed.

Lemma X20_scenario :
  ∃ w',
    CSVTrajectoryLoader.load Scenario.tid_label_loader Scenario.table
      Scenario.two_arrays = (Ok 2%nat, w') ∧
    heap w' !! Scenario.d0 = Some Scenario.five ∧
    heap w' !! Scenario.d1 = Some Scenario.one.
Proof.
  pose (w' := (CSVTrajectoryLoader.load Scenario.tid_label_loader Scenario.table
                 Scenario.two_arrays).2).
  destruct (X20_load_allocates_one_instance Scenario.tid_label_loader Scenario.table
              Scenario.two_arrays w' (Ok 2%nat)) as (_ & _ & _ & _ & Hkeep).
  { vm_compute. reflexivity. }
  exists w'. split; [vm_compute; reflexivity|].
  split; apply Hkeep; reflexivity.
Defined.

End LoadTheorems.

(** ** Instances rebound without labels *)

Section NoLabelsFacts.
Import Pandas Obj Layout.

(** X21: an instance rebound by [_update] with [labels=None] is not
    treated as a dataset without labels, because [np.array(None)] is not
    [None]: with a truthy label [get_tids] and [get_trajectories] raise
    [TypeError] instead of returning everything, [get_label] raises
    [IndexError] for a tid of the dataset, and [get_labels(unique=True)]
    raises [TypeError]. *)
Theorem X21_update_without_labels_is_not_unlabelled
    (a : option (list string)) (data : list trajectory) (tids : list scalar)
    (label : option scalar) (t : scalar) :
  truthy label = true →
  t ∈ tids →
  let o := Obj.mk a (Upd (TrajectoryData.bindings data tids None)) in
  ¬ unlabelled o ∧
  TrajectoryData.get_tids label o
    = Raise (TypeError "'NoneType' object is not subscriptable") ∧
  TrajectoryData.get_trajectories label o
    = Raise (TypeError "'NoneType' object is not subscriptable") ∧
  TrajectoryData.get_label t o = Raise IndexError ∧
  TrajectoryData.get_labels true o = Raise (TypeError "iteration over a 0-d array").
Proof.
  intros Htruthy (i & Hi)%last_position_exists. simpl.
  apply tidToIdx_last_position in Hi.
  unfold TrajectoryData.get_tids, TrajectoryData.get_trajectories,
    TrajectoryData.get_label, Dict.subscript. simpl.
  rewrite Htruthy, Hi. simpl. split_and!; try done.
Qed.

Lemma X21_scenario :
  TrajectoryData.get_tids (Some (SStr "a"))
    (Obj.mk None (Upd (TrajectoryData.bindings [[[Some (SStr "home")]]] [SInt 5] None)))
  = Raise (TypeError "'NoneType' object is not subscriptable").
Proof.
  destruct (X21_update_without_labels_is_not_unlabelled None
              [[[Some (SStr "home")]]] [SInt 5] (Some (SStr "a")) (SInt 5) eq_refl)
    as (_ & H & _).
  - apply (bool_decide_unpack _). vm_compute. exact I.
  - exact H.
Defined.

End NoLabelsFacts.

(** * The download cache *)

Section ToolsFacts.
Context {path disk : Type} (O : Tools.os path disk).


Lemma create_cache_dir_unset (folder : string) (s s' : Tools.state path disk)
    (r : result unit) :
  Tools.data_dir s = None →
  Tools._create_cache_dir O folder s = (r, s') →
  match Tools.glob_temp O (Tools.files s) with
  | d :: _ => Tools.data_dir s' = Some d
  | [] =>
      match Tools.mkdtemp O (Tools.files s) with
      | Ok (d, _) => Tools.data_dir s' = Some d
      | Raise e => r = Raise e ∧ s' = s
      end
  end.
Proof.
  intros Hd. unfold Tools._create_cache_dir, Tools._get_temp_dir. rewrite Hd.
  destruct (Tools.glob_temp O (Tools.files s)) as [|d ds].
  - destruct (Tools.mkdtemp O (Tools.files s)) as [[d fs]|e]; simpl.
    + destruct (Tools.mkdir O _ _); by intros [= <- <-].
    + by intros [= <- <-].
  - simpl. destruct (Tools.mkdir O _ _); by intros [= <- <-].
Qed.


(** X23: a download is fetched once.  On an operating system where
    [urlretrieve] leaves a file at its target and [mkdir] removes no file,
    after a call of [download_file] that returned, a call with
    [cache=True] for the same file returns the same path without calling
    [urlretrieve]: the disk it leaves is the one [mkdir] leaves. *)
Theorem X23_second_download_hits_the_cache
    (s s1 : Tools.state path disk) (folder file_name : string) (cache : bool)
    (p : path) (fs : disk) :
  (∀ url q fs0 fs1, Tools.urlretrieve O url q fs0 = Ok fs1 →
                    Tools.is_file O q fs1 = true) →
  (∀ q q' fs0 fs1, Tools.mkdir O q fs0 = Ok fs1 →
                   Tools.is_file O q' fs0 = true → Tools.is_file O q' fs1 = true) →
  Tools.download_file O folder file_name cache s = (Ok p, s1) →
  (∀ d, Tools.data_dir s1 = Some d →
        Tools.mkdir O (Tools.joinpath O d [folder]) (Tools.files s1) = Ok fs) →
  Tools.download_file O folder file_name true s1
  = (Ok p, Tools.mkState (Tools.data_dir s1) fs).
Proof.
  intros Hurl Hmk Hfirst Hmkdir.
  assert (∃ d, Tools.data_dir s1 = Some d ∧
               p = Tools.joinpath O d [folder; file_name] ∧
               Tools.is_file O p (Tools.files s1) = true) as (d & Hd1 & -> & Hfile).
  { unfold Tools.download_file in Hfirst.
    destruct (Tools._create_cache_dir O folder s) as [[[]|e] s0] eqn:E; [|done].
    unfold Tools.data_dir_joinpath in Hfirst.
    destruct (Tools.data_dir s0) as [d|] eqn:Hd0; [|done].
    destruct (negb cache || negb _) eqn:Hfetch.
    - destruct (Tools.urlretrieve O _ _ _) as [fs2|] eqn:Hu; [|done].
      injection Hfirst as <- <-. exists d. simpl. split_and!; [done|done|].
      by eapply Hurl.
    - injection Hfirst as <- <-. exists d. split_and!; [done|done|].
      apply orb_false_iff in Hfetch as [_ Hf]. by apply negb_false_iff in Hf. }
  specialize (Hmkdir d Hd1).
  unfold Tools.download_file, Tools._create_cache_dir. rewrite Hd1, Hmkdir. simpl.
  unfold Tools.data_dir_joinpath. simpl. rewrite Hd1.
  by rewrite (Hmk _ _ _ _ Hmkdir Hfile).
Qed.

(** X24: an archive without members makes [extract_tar] raise
    [IndexError]; by then the cache directory has been chosen and created,
    and nothing has been extracted. *)
Theorem X24_empty_archive_raises_IndexError
    (s : Tools.state path disk) (d : path) (folder : string) (file : path)
    (cache : bool) (fs : disk) :
  Tools.data_dir s = Some d →
  Tools.mkdir O (Tools.joinpath O d [folder]) (Tools.files s) = Ok fs →
  Tools.getnames O file fs = Ok [] →
  Tools.extract_tar O folder file cache s
  = (Raise IndexError, Tools.mkState (Some d) fs).
Proof.
  intros Hd Hmk Hnames.
  unfold Tools.extract_tar, Tools._create_cache_dir. rewrite Hd, Hmk. simpl.
  unfold Tools.data_dir_joinpath. simpl. by rewrite Hd, Hnames.
Qed.

(** X25: with the cache directory unset, a call adopts the first
    directory that the glob [trajminer_data_*] finds in the temporary
    directory, and creates a temporary directory only when there is none;
    the choice is kept whether the call then returns or raises.  When the
    temporary directory cannot be created the call raises and the cache
    directory stays unset. *)
Theorem X25_temporary_directory_is_reused
    (s s' : Tools.state path disk) (folder file_name : string) (cache : bool)
    (r : result path) :
  Tools.data_dir s = None →
  Tools.download_file O folder file_name cache s = (r, s') →
  match Tools.glob_temp O (Tools.files s) with
  | d :: _ => Tools.data_dir s' = Some d
  | [] =>
      match Tools.mkdtemp O (Tools.files s) with
      | Ok (d, _) => Tools.data_dir s' = Some d
      | Raise e => r = Raise e ∧ s' = s
      end
  end.
Proof.
  intros Hd. unfold Tools.download_file.
  destruct (Tools._create_cache_dir O folder s) as [r0 s0] eqn:E.
  apply create_cache_dir_unset in E; [|done].
  assert (∀ d, Tools.data_dir s0 = Some d →
               match r0 with
               | Ok _ =>
                   match Tools.data_dir_joinpath O [folder; file_name] s0 with
                   | Ok file_path =>
                       if negb cache || negb (Tools.is_file O file_path (Tools.files s0))
                       then
                         match Tools.urlretrieve O (Tools.get_file_url folder file_name)
                                 file_path (Tools.files s0) with
                         | Ok fs => (Ok file_path, Tools.mkState (Tools.data_dir s0) fs)
                         | Raise e => (Raise e, s0)
                         end
                       else (Ok file_path, s0)
                   | Raise e => (Raise e, s0)
                   end
               | Raise e => (Raise e, s0)
               end = (r, s') → Tools.data_dir s' = Some d) as Hkeep.
  { intros d Hd0. destruct r0; [|by intros [= <- <-]].
    destruct (Tools.data_dir_joinpath O _ s0); [|by intros [= <- <-]].
    destruct (negb cache || _); [|by intros [= <- <-]].
    destruct (Tools.urlretrieve O _ _ _); by intros [= <- <-]. }
  destruct (Tools.glob_temp O (Tools.files s)) as [|d ds]; [|by apply Hkeep].
  destruct (Tools.mkdtemp O (Tools.files s)) as [[d fs]|e]; [by apply Hkeep|].
  destruct E as [-> ->]. by intros [= <- <-].
Qed.

End ToolsFacts.

Section ToolsScenarios.


Lemma X23_scenario :
  ∃ p s1,
    Tools.download_file Tools.toy "brightkite" "data.tar" false
      (Tools.mkState (Some ["cache"]) []) = (Ok p, s1) ∧
    Tools.download_file Tools.toy "brightkite" "data.tar" true s1 = (Ok p, s1).
Proof.
  exists ["cache"; "brightkite"; "data.tar"],
         (Tools.mkState (Some ["cache"]) [["cache"; "brightkite"; "data.tar"]]).
  split; [reflexivity|].
  apply (X23_second_download_hits_the_cache Tools.toy
           (Tools.mkState (Some ["cache"]) [])
           (Tools.mkState (Some ["cache"]) [["cache"; "brightkite"; "data.tar"]])
           "brightkite" "data.tar" false
           ["cache"; "brightkite"; "data.tar"]
           [["cache"; "brightkite"; "data.tar"]]).
  - intros url q fs0 fs1 [= <-]. simpl. apply bool_decide_eq_true. by left.
  - intros q q' fs0 fs1 [= <-]. done.
  - reflexivity.
  - intros d _. reflexivity.
Defined.

Lemma X24_scenario :
  Tools.extract_tar Tools.toy_empty_archives
    "brightkite" ["cache"; "brightkite"; "data.tar"] true
    (Tools.mkState (Some ["cache"]) [])
  = (Raise IndexError, Tools.mkState (Some ["cache"]) []).
Proof.
  exact (X24_empty_archive_raises_IndexError Tools.toy_empty_archives
           (Tools.mkState (Some ["cache"]) [])
           ["cache"] "brightkite" ["cache"; "brightkite"; "data.tar"] true []
           eq_refl eq_refl eq_refl).
Defined.

Lemma X25_scenario :
  ∃ r s',
    Tools.download_file Tools.toy "brightkite" "data.tar" true (Tools.mkState None [])
    = (r, s') ∧
    Tools.data_dir s' = Some ["tmp"; "trajminer_data_0"].
Proof.
  pose (res := Tools.download_file Tools.toy "brightkite" "data.tar" true
                 (Tools.mkState None [])).
  exists res.1, res.2. split; [apply surjective_pairing|].
  exact (X25_temporary_directory_is_reused Tools.toy (Tools.mkState None []) res.2
           "brightkite" "data.tar" true res.1 eq_refl (surjective_pairing _)).
Defined.

End ToolsScenarios.
